(** * ComplianceGuard: the check execution framework

    A shallow embedding of [src/checks/base_check.py] (the probe contract and
    the [run] wrapper), of the five shipped probes ([SoftwareUpdatesCheck],
    [FirewallCheck], [FileVaultCheck], [ScreenLockCheck], [SSHConfigCheck]),
    of the orchestration, aggregation and presentation code of
    [dashboard.py] ([run_all_checks], [calculate_stats], [get_status_icon],
    [get_score_color], the category grouping and the export rows of [main])
    and of [ConfigLoader] ([src/core/config_loader.py]).

    Python dictionaries are finite maps from [string] keys to Python values;
    the one dictionary whose key order is observable (the category grouping)
    is an association list in insertion order.  Exceptions are explicit: every
    operation that can raise returns an [outcome]. *)

From stdpp Require Import gmap strings list fin_maps pretty.
From Stdlib Require Import ZArith QArith Qround Qabs Qpower Ascii.

#[local] Set Warnings "-register-all,-clear-no-such-hyp".
#[local] Open Scope Z_scope.

(** ** Exceptions and outcomes *)

(** The exception classes that the modelled code names or can meet.  The
    first three are outside [Exception]: an [except Exception] clause does
    not intercept them. *)
Inductive exc_class :=
| BaseException
| KeyboardInterrupt
| SystemExit
| Exception
| RuntimeError
| AttributeError
| KeyError
| TypeError
| ValueError
| ZeroDivisionError
| OSError
| FileNotFoundError
| PermissionError
| SubprocessError
| TimeoutExpired.

#[global] Instance exc_class_eq_dec : EqDecision exc_class.
Proof. solve_decision. Defined.

(** Method resolution order of each class, most specific first. *)
Definition mro (c : exc_class) : list exc_class :=
  match c with
  | BaseException => [BaseException]
  | KeyboardInterrupt => [KeyboardInterrupt; BaseException]
  | SystemExit => [SystemExit; BaseException]
  | Exception => [Exception; BaseException]
  | RuntimeError => [RuntimeError; Exception; BaseException]
  | AttributeError => [AttributeError; Exception; BaseException]
  | KeyError => [KeyError; Exception; BaseException]
  | TypeError => [TypeError; Exception; BaseException]
  | ValueError => [ValueError; Exception; BaseException]
  | ZeroDivisionError => [ZeroDivisionError; Exception; BaseException]
  | OSError => [OSError; Exception; BaseException]
  | FileNotFoundError => [FileNotFoundError; OSError; Exception; BaseException]
  | PermissionError => [PermissionError; OSError; Exception; BaseException]
  | SubprocessError => [SubprocessError; Exception; BaseException]
  | TimeoutExpired => [TimeoutExpired; SubprocessError; Exception; BaseException]
  end.

Definition issubclass (c d : exc_class) : bool := bool_decide (d ∈ mro c).

(** A raised exception: its class and the text [str(e)] yields. *)
Record exception := mk_exception { exc_type : exc_class; exc_str : string }.

Definition isinstance (e : exception) (c : exc_class) : bool :=
  issubclass (exc_type e) c.

Inductive outcome (A : Type) :=
| Return (a : A)
| Raise (e : exception).
Arguments Return {A} a.
Arguments Raise {A} e.

#[global] Instance outcome_ret : MRet outcome := fun A a => Return a.
#[global] Instance outcome_bind : MBind outcome := fun A B f m =>
  match m with
  | Return a => f a
  | Raise e => Raise e
  end.

(** [try: body except c as e: handler e]. *)
Definition try_except {A} (body : outcome A) (c : exc_class)
    (handler : exception → outcome A) : outcome A :=
  match body with
  | Return a => Return a
  | Raise e => if isinstance e c then handler e else Raise e
  end.

(** ** Python values *)

Inductive CheckStatus := PASS | FAIL | WARNING | ERROR | NOT_APPLICABLE.
Inductive Severity := CRITICAL | HIGH | MEDIUM | LOW | INFO.

#[global] Instance CheckStatus_eq_dec : EqDecision CheckStatus.
Proof. solve_decision. Defined.
#[global] Instance Severity_eq_dec : EqDecision Severity.
Proof. solve_decision. Defined.

(** The [.value] of each enumeration member. *)
Definition CheckStatus_value (s : CheckStatus) : string :=
  match s with
  | PASS => "PASS"
  | FAIL => "FAIL"
  | WARNING => "WARNING"
  | ERROR => "ERROR"
  | NOT_APPLICABLE => "NOT_APPLICABLE"
  end.

Definition Severity_value (s : Severity) : string :=
  match s with
  | CRITICAL => "CRITICAL"
  | HIGH => "HIGH"
  | MEDIUM => "MEDIUM"
  | LOW => "LOW"
  | INFO => "INFO"
  end.

(** A Python value.  A [float] is held as the exact rational number that the
    finite binary64 value denotes, in lowest terms (see [b64_round]). *)
Inductive pyval :=
| VNone
| VBool (b : bool)
| VInt (z : Z)
| VFloat (x : Q)
| VStr (s : string)
| VStatus (s : CheckStatus)
| VSeverity (s : Severity)
| VList (l : list pyval)
| VDict (d : gmap string pyval).

Abbreviation dict := (gmap string pyval).

(** [type(v).__name__]. *)
Definition type_name (v : pyval) : string :=
  match v with
  | VNone => "NoneType"
  | VBool _ => "bool"
  | VInt _ => "int"
  | VFloat _ => "float"
  | VStr _ => "str"
  | VStatus _ => "CheckStatus"
  | VSeverity _ => "Severity"
  | VList _ => "list"
  | VDict _ => "dict"
  end.

Definition no_attribute (v : pyval) (attr : string) : exception :=
  mk_exception AttributeError
    ("'" +:+ type_name v +:+ "' object has no attribute '" +:+ attr +:+ "'").

(** [v.get(key, default)]: only dictionaries have the method. *)
Definition py_get (v : pyval) (key : string) (default : pyval) : outcome pyval :=
  match v with
  | VDict d => Return (from_option (fun x => x) default (d !! key))
  | _ => Raise (no_attribute v "get")
  end.

(** [v.value]: only enumeration members have the attribute. *)
Definition py_value (v : pyval) : outcome pyval :=
  match v with
  | VStatus s => Return (VStr (CheckStatus_value s))
  | VSeverity s => Return (VStr (Severity_value s))
  | _ => Raise (no_attribute v "value")
  end.

(** [d[key]] on a dictionary: [KeyError] when the key is absent;
    [str(KeyError(k))] is the [repr] of the key. *)
Definition py_getitem (d : dict) (key : string) : outcome pyval :=
  match d !! key with
  | Some v => Return v
  | None => Raise (mk_exception KeyError ("'" +:+ key +:+ "'"))
  end.

(** A dictionary display [{k1: v1, ..., kn: vn}]: entries are stored left to
    right, a later entry replacing an earlier one with the same key. *)
Definition mkdict (entries : list (string * pyval)) : dict :=
  fold_left (fun d kv => <[kv.1 := kv.2]> d) entries ∅.
#[global] Arguments mkdict : simpl never.

(** ** The probe contract and the execution wrapper ([base_check.py]) *)

Module BaseCheck.

(** A probe instance: the static metadata set by [__init__], and [check],
    the outcome of calling [self.check()] in the execution at hand (the
    ambient system state the probe reads is already fixed). *)
Record t := mk {
  id : string;
  title : string;
  description : string;
  category : string;
  severity : Severity;
  compliance_frameworks : list string;
  remediation : string;
  check : outcome pyval
}.

(** The body of the [try] block of [run].  [now] is the text that
    [datetime.now().isoformat()] yields in this execution. *)
Definition run_try (self : t) (now : string) : outcome dict :=
  result ← check self;
  status ← py_get result "status" (VStatus ERROR) ≫= py_value;
  finding ← py_get result "finding" (VStr "No finding recorded");
  evidence ← py_get result "evidence" VNone;
  risk ← py_get result "risk" (VStr "");
  remediation' ← py_get result "remediation" (VStr (remediation self));
  mret (mkdict [
    ("id", VStr (id self));
    ("title", VStr (title self));
    ("description", VStr (description self));
    ("category", VStr (category self));
    ("severity", VStr (Severity_value (severity self)));
    ("compliance_frameworks", VList (VStr <$> compliance_frameworks self));
    ("status", status);
    ("finding", finding);
    ("evidence", evidence);
    ("risk", risk);
    ("remediation", remediation');
    ("timestamp", VStr now);
    ("error", VNone)
  ]).

(** The [except Exception as e] handler of [run]. *)
Definition run_except (self : t) (now : string) (e : exception) : outcome dict :=
  mret (mkdict [
    ("id", VStr (id self));
    ("title", VStr (title self));
    ("description", VStr (description self));
    ("category", VStr (category self));
    ("severity", VStr (Severity_value (severity self)));
    ("status", VStr (CheckStatus_value ERROR));
    ("finding", VStr "Check execution failed");
    ("evidence", VNone);
    ("risk", VStr "");
    ("remediation", VStr "");
    ("timestamp", VStr now);
    ("error", VStr (exc_str e))
  ]).

Definition run (self : t) (now : string) : outcome dict :=
  try_except (run_try self now) Exception (run_except self now).

End BaseCheck.

(** The keys of a complete result: the static metadata of the probe and the
    dynamic outcome fields, as the success path of [run] writes them. *)
Definition result_keys : list string :=
  ["id"; "title"; "description"; "category"; "severity";
   "compliance_frameworks"; "status"; "finding"; "evidence"; "risk";
   "remediation"; "timestamp"; "error"].

Definition complete_result (d : dict) : Prop :=
  Forall (fun k => is_Some (d !! k)) result_keys.

(** [check()] honours its contract: it returns a dictionary whose ['status'],
    when present, is a [CheckStatus] member. *)
Definition returns_outcome (self : BaseCheck.t) (o : dict) : Prop :=
  BaseCheck.check self = Return (VDict o) ∧
  (o !! "status" = None ∨ ∃ s, o !! "status" = Some (VStatus s)).

(** [check()] raises an exception that derives from [Exception]. *)
Definition raises_exception (self : BaseCheck.t) (e : exception) : Prop :=
  BaseCheck.check self = Raise e ∧ isinstance e Exception = true.

(** ** The scan orchestrator ([dashboard.py], [run_all_checks]) *)

(** The loop [for idx, check in enumerate(checks): result = check.run();
    results.append(result)].  The source builds the list of the five shipped
    probes itself; the loop does not depend on which probes it holds, so the
    list is an argument here.  [clock idx] is what the wall clock reads when
    probe [idx] completes.  The Streamlit widget calls of the loop write to
    the page only and are left out. *)
Fixpoint run_all_checks_from (checks : list BaseCheck.t) (clock : nat → string)
    (idx : nat) (results : list dict) : outcome (list dict) :=
  match checks with
  | [] => mret results
  | check :: rest =>
      result ← BaseCheck.run check (clock idx);
      run_all_checks_from rest clock (S idx) (results ++ [result])
  end.

Definition run_all_checks (checks : list BaseCheck.t) (clock : nat → string)
    : outcome (list dict) :=
  run_all_checks_from checks clock 0%nat [].

(** ** Binary64 arithmetic

    The aggregator's score is a Python [float].  The operations it uses are
    correctly rounded, so each is the exact rational result followed by
    rounding to the nearest binary64 value, ties to even.  Every value the
    aggregator meets lies in [[0, 100]]: overflow, signed zeros and NaN do
    not arise and are not represented. *)

(** [floor (log2 q)] for [q > 0]. *)
Definition Qlog2_floor (q : Q) : Z :=
  let e := Z.log2 (Qnum q) - Z.log2 (Zpos (Qden q)) in
  if Qle_bool (Qpower 2 e) q then e else e - 1.

(** Rounding to the nearest integer, ties to the even one. *)
Definition round_half_even (q : Q) : Z :=
  let f := Qfloor q in
  match Qcompare (q - inject_Z f) (1 # 2) with
  | Lt => f
  | Gt => f + 1
  | Eq => if Z.even f then f else f + 1
  end.

(** The binary64 value nearest to [q]: 53 significant bits, the unit in the
    last place never below [2^-1074]. *)
Definition b64_round (q : Q) : Q :=
  let q := Qred q in
  if Qeq_bool q 0 then 0%Q
  else
    let ulp := Qpower 2 (Z.max (Qlog2_floor (Qabs q) - 52) (-1074)) in
    Qred (inject_Z (round_half_even (q / ulp)) * ulp).

(** [float(n)]. *)
Definition float_of_int (n : Z) : Q := b64_round (inject_Z n).

(** [a / b] on integers: true division, correctly rounded. *)
Definition int_truediv (a b : Z) : outcome Q :=
  if b =? 0 then Raise (mk_exception ZeroDivisionError "division by zero")
  else mret (b64_round (inject_Z a / inject_Z b)).

(** [x * y] on floats. *)
Definition float_mul (x y : Q) : Q := b64_round (x * y).

(** [round(x, 1)] on a [float]: [x] is rounded to one decimal place, half
    to even on its exact value, and the decimal result is converted back to
    the nearest [float]. *)
Definition float_round_1 (x : Q) : Q :=
  b64_round (inject_Z (round_half_even (x * 10)) / 10).

(** [round(v, 1)]: an [int] (a [bool] is one) is returned as it is, a
    [float] is rounded; the other types define no [__round__]. *)
Definition round_1 (v : pyval) : outcome pyval :=
  match v with
  | VFloat x => mret (VFloat (float_round_1 x))
  | VInt z => mret (VInt z)
  | VBool b => mret (VInt (Z.b2z b))
  | _ =>
      Raise (mk_exception TypeError
               ("type " +:+ type_name v +:+ " doesn't define __round__ method"))
  end.

(** ** The aggregator ([dashboard.py], [calculate_stats]) *)

(** [v == s] for a string literal [s]: only an equal [str] compares equal. *)
Definition py_eq_str (v : pyval) (s : string) : bool :=
  match v with
  | VStr t => bool_decide (t = s)
  | _ => false
  end.

(** [sum(1 for r in results if r['status'] == status)], from the running
    total [acc]. *)
Fixpoint count_status_from (status : string) (results : list dict) (acc : Z)
    : outcome Z :=
  match results with
  | [] => mret acc
  | r :: rest =>
      v ← py_getitem r "status";
      count_status_from status rest (if py_eq_str v status then acc + 1 else acc)
  end.

Definition count_status (status : string) (results : list dict) : outcome Z :=
  count_status_from status results 0.

Definition calculate_stats (results : list dict) : outcome dict :=
  let total := Z.of_nat (length results) in
  passed ← count_status "PASS" results;
  failed ← count_status "FAIL" results;
  warnings ← count_status "WARNING" results;
  compliance_score ←
    (if 0 <? total
     then q ← int_truediv passed total;
          mret (VFloat (float_mul q (float_of_int 100)))
     else mret (VInt 0));
  rounded ← round_1 compliance_score;
  mret (mkdict [
    ("total", VInt total);
    ("passed", VInt passed);
    ("failed", VInt failed);
    ("warnings", VInt warnings);
    ("compliance_score", rounded)
  ]).

(** ** Grouping by category ([dashboard.py], [main], lines 219-224) *)

(** The numeric value of a [bool], [int] or [float]. *)
Definition py_num (v : pyval) : option Q :=
  match v with
  | VBool b => Some (inject_Z (Z.b2z b))
  | VInt z => Some (inject_Z z)
  | VFloat x => Some x
  | _ => None
  end.

(** [a == b] between dictionary keys. *)
Definition py_eq_key (a b : pyval) : bool :=
  match py_num a, py_num b with
  | Some x, Some y => Qeq_bool x y
  | None, None =>
      match a, b with
      | VNone, VNone => true
      | VStr s, VStr t => bool_decide (s = t)
      | VStatus s, VStatus t => bool_decide (s = t)
      | VSeverity s, VSeverity t => bool_decide (s = t)
      | _, _ => false
      end
  | _, _ => false
  end.

(** [hash(v)]: lists and dictionaries are unhashable. *)
Definition py_hash (v : pyval) : outcome unit :=
  match v with
  | VList _ | VDict _ =>
      Raise (mk_exception TypeError ("unhashable type: '" +:+ type_name v +:+ "'"))
  | _ => mret ()
  end.

(** [categories], a dictionary from category to the list of its results,
    in insertion order. *)
Abbreviation groups := (list (pyval * list dict)).

(** [cat in categories]. *)
Fixpoint groups_contains (cat : pyval) (categories : groups) : bool :=
  match categories with
  | [] => false
  | (k, _) :: rest => py_eq_key k cat || groups_contains cat rest
  end.

(** [categories[cat].append(result)]; the [KeyError] of a missing key cannot
    arise in the loop below, which has just inserted the key. *)
Fixpoint groups_append (cat : pyval) (result : dict) (categories : groups)
    : outcome groups :=
  match categories with
  | [] => Raise (mk_exception KeyError "category")
  | (k, checks) :: rest =>
      if py_eq_key k cat then mret ((k, checks ++ [result]) :: rest)
      else rest' ← groups_append cat result rest; mret ((k, checks) :: rest')
  end.

Fixpoint group_by_category_from (results : list dict) (categories : groups)
    : outcome groups :=
  match results with
  | [] => mret categories
  | result :: rest =>
      cat ← py_getitem result "category";
      _ ← py_hash cat;
      categories ←
        groups_append cat result
          (if groups_contains cat categories then categories
           else categories ++ [(cat, [])]);
      group_by_category_from rest categories
  end.

Definition group_by_category (results : list dict) : outcome groups :=
  group_by_category_from results [].

(** ** Text operations

    Python [str] values are modelled by [string], one character per byte
    (non-ASCII text is held as its UTF-8 bytes).  The operations below are
    the ASCII ones: they agree with Python's on ASCII text, which is what the
    probed commands print. *)

Module PyStr.

(** [c.isspace()] for an ASCII character. *)
Definition isspace (c : Ascii.ascii) : bool :=
  let n := Ascii.nat_of_ascii c in
  ((9 <=? n) && (n <=? 13) || (28 <=? n) && (n <=? 32))%nat.

Definition lower_char (c : Ascii.ascii) : Ascii.ascii :=
  let n := Ascii.nat_of_ascii c in
  if ((65 <=? n) && (n <=? 90))%nat then Ascii.ascii_of_nat (n + 32) else c.

(** [s.lower()]. *)
Fixpoint lower (s : string) : string :=
  match s with
  | EmptyString => EmptyString
  | String c s' => String (lower_char c) (lower s')
  end.

(** [s.lstrip(chars)], [chars] given as a predicate. *)
Fixpoint lstrip_by (drop : Ascii.ascii → bool) (s : string) : string :=
  match s with
  | EmptyString => EmptyString
  | String c s' => if drop c then lstrip_by drop s' else s
  end.

Definition rstrip_by (drop : Ascii.ascii → bool) (s : string) : string :=
  String.rev (lstrip_by drop (String.rev s)).

(** [s.strip()]. *)
Definition strip (s : string) : string :=
  rstrip_by isspace (lstrip_by isspace s).

(** [s.startswith(p)]. *)
Definition startswith (s p : string) : bool := String.prefix p s.

(** [sub in s]. *)
Fixpoint contains (sub s : string) : bool :=
  String.prefix sub s ||
  match s with
  | EmptyString => false
  | String _ s' => contains sub s'
  end.

(** [s.split(sep)] for a one-character separator. *)
Fixpoint split (sep : Ascii.ascii) (s : string) : list string :=
  match s with
  | EmptyString => [EmptyString]
  | String c s' =>
      if Ascii.eqb c sep then EmptyString :: split sep s'
      else
        match split sep s' with
        | [] => [String c EmptyString]
        | w :: ws => String c w :: ws
        end
  end.

(** [s.split(sep, 1)[1]] when [sep in s]: the text after the first [sep]. *)
Fixpoint after_first (sep : Ascii.ascii) (s : string) : string :=
  match s with
  | EmptyString => EmptyString
  | String c s' => if Ascii.eqb c sep then s' else after_first sep s'
  end.

(** [s[:n]]. *)
Definition slice_to (n : nat) (s : string) : string := String.substring 0 n s.

(** [str(n)] for a length. *)
Definition of_nat (n : nat) : string := pretty n.

End PyStr.

(** ** The ambient system a probe reads *)

(** What [subprocess.run(..., capture_output=True, text=True)] returns. *)
Record CompletedProcess := mk_CompletedProcess {
  returncode : Z;
  stdout : string;
  stderr : string
}.

(** The system state of one execution: what running a command yields (a
    completed process, or the exception [subprocess.run] raises: a missing
    executable, a timeout, an interrupt), which paths exist, and what reading
    a file yields. *)
Record environment := mk_environment {
  subprocess_run : list string → outcome CompletedProcess;
  os_path_exists : string → bool;
  open_read : string → outcome string
}.

(** [try: body except c1: h1 except c2: h2 ...]: the first clause whose class
    the exception is an instance of handles it. *)
Fixpoint try_excepts {A} (body : outcome A)
    (clauses : list (exc_class * (exception → outcome A))) : outcome A :=
  match body with
  | Return a => Return a
  | Raise e =>
      match clauses with
      | [] => Raise e
      | (c, handler) :: rest =>
          if isinstance e c then handler e else try_excepts (Raise e) rest
      end
  end.

(** [l[:n]] on a list. *)
Definition list_slice_to {A} (n : nat) (l : list A) : list A := take n l.

(** ** [FirewallCheck] ([src/checks/network/firewall_check.py]) *)

Definition socketfilterfw : string :=
  "/usr/libexec/ApplicationFirewall/socketfilterfw".

Definition FirewallCheck_check (env : environment) : outcome pyval :=
  try_except
    (result ← subprocess_run env [socketfilterfw; "--getglobalstate"];
     let output := PyStr.lower (PyStr.strip (stdout result)) in
     if PyStr.contains "enabled" output then
       stealth_result ← subprocess_run env [socketfilterfw; "--getstealthmode"];
       let stealth_enabled :=
         PyStr.contains "enabled" (PyStr.lower (stdout stealth_result)) in
       mret (VDict (mkdict [
         ("status", VStatus PASS);
         ("finding", VStr "Firewall is enabled");
         ("evidence", VDict (mkdict [
            ("firewall_enabled", VBool true);
            ("stealth_mode", VBool stealth_enabled);
            ("output", VStr (stdout result))]));
         ("risk", VStr "None")]))
     else
       mret (VDict (mkdict [
         ("status", VStatus FAIL);
         ("finding", VStr "Firewall is DISABLED");
         ("evidence", VDict (mkdict [
            ("firewall_enabled", VBool false);
            ("output", VStr (stdout result))]));
         ("risk", VStr "System is vulnerable to network-based attacks. Unauthorized network connections can be established.")])))
    Exception
    (fun e =>
       mret (VDict (mkdict [
         ("status", VStatus ERROR);
         ("finding", VStr "Could not check firewall status");
         ("evidence", VDict (mkdict [("error", VStr (exc_str e))]));
         ("risk", VStr "Unable to verify firewall configuration")]))).

Definition FirewallCheck (env : environment) : BaseCheck.t :=
  {| BaseCheck.id := "CIS-2.1.1";
     BaseCheck.title := "Ensure Firewall Is Enabled";
     BaseCheck.description :=
       "The macOS Application Firewall provides protection against network-based attacks";
     BaseCheck.category := "Network Security";
     BaseCheck.severity := HIGH;
     BaseCheck.compliance_frameworks :=
       ["CIS_macOS_14"; "NIST_CSF_PR.AC-5"; "ISO27001_A.13.1.1"];
     BaseCheck.remediation := "
To enable the firewall:
1. Open System Settings → Network → Firewall
2. Toggle Firewall to ON
3. Click Options to configure firewall settings
4. Or run: sudo /usr/libexec/ApplicationFirewall/socketfilterfw --setglobalstate on
";
     BaseCheck.check := FirewallCheck_check env |}.

(** ** [SSHConfigCheck] ([src/checks/network/ssh_config_check.py]) *)

Definition SSHConfigCheck_check (env : environment) : outcome pyval :=
  try_excepts
    (result ← subprocess_run env ["sudo"; "systemsetup"; "-getremotelogin"];
     let ssh_enabled := PyStr.contains "On" (stdout result) in
     if negb ssh_enabled then
       mret (VDict (mkdict [
         ("status", VStatus PASS);
         ("finding", VStr "SSH Remote Login is disabled (recommended if not needed)");
         ("evidence", VDict (mkdict [
            ("ssh_enabled", VBool false);
            ("status", VStr (PyStr.strip (stdout result)))]));
         ("risk", VStr "None")]))
     else
       let issues : list string := [] in
       let config_path := "/etc/ssh/sshd_config" in
       if os_path_exists env config_path then
         config_content ← open_read env config_path;
         let issues :=
           if PyStr.contains "PermitRootLogin yes" config_content
           then issues ++ ["Root login is permitted"] else issues in
         let issues :=
           if PyStr.contains "PasswordAuthentication yes" config_content
           then issues ++ ["Password authentication is enabled (keys recommended)"]
           else issues in
         let issues :=
           if PyStr.contains "PermitEmptyPasswords yes" config_content
           then issues ++ ["Empty passwords are permitted"] else issues in
         if bool_decide (issues ≠ []) then
           mret (VDict (mkdict [
             ("status", VStatus FAIL);
             ("finding", VStr ("SSH is enabled with " +:+ PyStr.of_nat (length issues)
                               +:+ " security issue(s)"));
             ("evidence", VDict (mkdict [
                ("ssh_enabled", VBool true);
                ("issues", VList (VStr <$> issues));
                ("config_checked", VBool true)]));
             ("risk", VStr "SSH configuration allows insecure practices that could lead to unauthorized access")]))
         else
           mret (VDict (mkdict [
             ("status", VStatus PASS);
             ("finding", VStr "SSH is enabled with secure configuration");
             ("evidence", VDict (mkdict [
                ("ssh_enabled", VBool true);
                ("issues", VList []);
                ("config_checked", VBool true)]));
             ("risk", VStr "Low - SSH is configured with security best practices")]))
       else
         mret (VDict (mkdict [
           ("status", VStatus WARNING);
           ("finding", VStr "SSH is enabled but configuration file not found");
           ("evidence", VDict (mkdict [
              ("ssh_enabled", VBool true);
              ("config_path", VStr config_path);
              ("config_found", VBool false)]));
           ("risk", VStr "Unable to verify SSH security configuration")])))
    [(PermissionError, fun _ =>
        mret (VDict (mkdict [
          ("status", VStatus WARNING);
          ("finding", VStr "Insufficient permissions to check SSH configuration (needs sudo)");
          ("evidence", VDict (mkdict [("error", VStr "Permission denied")]));
          ("risk", VStr "Unable to verify SSH security configuration")])));
     (Exception, fun e =>
        mret (VDict (mkdict [
          ("status", VStatus ERROR);
          ("finding", VStr "Could not check SSH configuration");
          ("evidence", VDict (mkdict [("error", VStr (exc_str e))]));
          ("risk", VStr "Unable to verify SSH security")])))].

Definition SSHConfigCheck (env : environment) : BaseCheck.t :=
  {| BaseCheck.id := "CIS-4.2";
     BaseCheck.title := "Ensure SSH Server Is Configured Securely";
     BaseCheck.description :=
       "SSH should be disabled if not needed, or configured securely if required";
     BaseCheck.category := "Network Security";
     BaseCheck.severity := HIGH;
     BaseCheck.compliance_frameworks :=
       ["CIS_macOS_14"; "NIST_CSF_PR.AC-4"; "ISO27001_A.13.1.1"];
     BaseCheck.remediation := "
To secure or disable SSH:
1. If SSH not needed: System Settings → General → Sharing → Remote Login OFF
2. If SSH needed, configure /etc/ssh/sshd_config:
   - PermitRootLogin no
   - PasswordAuthentication no (use keys only)
   - PermitEmptyPasswords no
   - Protocol 2
3. Restart SSH: sudo launchctl unload -w /System/Library/LaunchDaemons/ssh.plist
";
     BaseCheck.check := SSHConfigCheck_check env |}.

(** ** [SoftwareUpdatesCheck] ([src/checks/system/software_updates.py]) *)

(** One turn of the loop of [_parse_updates]. *)
Definition parse_update_line (updates : list string) (line : string) : list string :=
  let line := PyStr.strip line in
  if PyStr.startswith line "*" || PyStr.startswith line "Label:" then
    let update_name :=
      if PyStr.contains ":" line
      then PyStr.strip (PyStr.after_first ":"%char line)
      else PyStr.strip
             (PyStr.lstrip_by
                (fun c => Ascii.eqb c "*"%char || Ascii.eqb c " "%char) line) in
    if bool_decide (update_name ≠ EmptyString) then updates ++ [update_name]
    else updates
  else updates.

Definition _parse_updates (output : string) : list string :=
  fold_left parse_update_line (PyStr.split "010"%char output) [].

Definition SoftwareUpdatesCheck_check (env : environment) : outcome pyval :=
  try_excepts
    (result ← subprocess_run env ["softwareupdate"; "-l"];
     let output := PyStr.lower (stdout result) in
     if PyStr.contains "no new software available" output
        || PyStr.contains "no updates available" output
     then
       mret (VDict (mkdict [
         ("status", VStatus PASS);
         ("finding", VStr "System is up to date - no pending updates");
         ("evidence", VDict (mkdict [
            ("updates_available", VInt 0);
            ("output", VStr (PyStr.slice_to 200 (stdout result)))]));
         ("risk", VStr "None")]))
     else
       let updates := _parse_updates (stdout result) in
       let has_security_updates :=
         existsb (fun u => PyStr.contains "security" (PyStr.lower u)) updates in
       let severity_msg :=
         if has_security_updates then "CRITICAL - Security updates available"
         else PyStr.of_nat (length updates) +:+ " update(s) available" in
       mret (VDict (mkdict [
         ("status", VStatus FAIL);
         ("finding", VStr severity_msg);
         ("evidence", VDict (mkdict [
            ("updates_available", VInt (Z.of_nat (length updates)));
            ("updates", VList (VStr <$> list_slice_to 5 updates));
            ("has_security_updates", VBool has_security_updates)]));
         ("risk", VStr "Outdated software may contain known vulnerabilities that can be exploited by attackers")])))
    [(TimeoutExpired, fun _ =>
        mret (VDict (mkdict [
          ("status", VStatus ERROR);
          ("finding", VStr "Software update check timed out");
          ("evidence", VDict (mkdict [("error", VStr "Command timeout after 30 seconds")]));
          ("risk", VStr "Unable to verify update status")])));
     (Exception, fun e =>
        mret (VDict (mkdict [
          ("status", VStatus ERROR);
          ("finding", VStr "Could not check software updates");
          ("evidence", VDict (mkdict [("error", VStr (exc_str e))]));
          ("risk", VStr "Unable to verify update status")])))].

Definition SoftwareUpdatesCheck (env : environment) : BaseCheck.t :=
  {| BaseCheck.id := "CIS-1.1";
     BaseCheck.title := "Ensure All Apple-Provided Software Is Current";
     BaseCheck.description :=
       "Software updates often contain security patches for vulnerabilities";
     BaseCheck.category := "System Updates";
     BaseCheck.severity := HIGH;
     BaseCheck.compliance_frameworks :=
       ["CIS_macOS_14"; "NIST_CSF_PR.IP-12"; "ISO27001_A.12.6.1"];
     BaseCheck.remediation := "
To install updates:
1. Open System Settings → General → Software Update
2. Install all available updates
3. Or run: sudo softwareupdate -ia --restart
4. Enable automatic updates for security patches
";
     BaseCheck.check := SoftwareUpdatesCheck_check env |}.

(** ** Specification vocabulary *)

(** The probe is within the contract of the wrapper: [check()] returns a
    value or raises an exception that derives from [Exception]. *)
Definition in_contract (self : BaseCheck.t) : Prop :=
  (∃ v, BaseCheck.check self = Return v) ∨ (∃ e, raises_exception self e).

(** The text [run] stores under ["status"] for the outcome [o], when its
    status entry can be read: the [.value] of an enumeration member, "ERROR"
    when the entry is missing. *)
Definition status_text (o : dict) : option string :=
  match o !! "status" with
  | None => Some (CheckStatus_value ERROR)
  | Some (VStatus s) => Some (CheckStatus_value s)
  | Some (VSeverity s) => Some (Severity_value s)
  | Some _ => None
  end.

(** The result carries status [s]. *)
Definition status_is (s : CheckStatus) (r : dict) : Prop :=
  r !! "status" = Some (VStr (CheckStatus_value s)).

#[global] Instance status_is_dec s r : Decision (status_is s r).
Proof.
  unfold status_is.
  destruct (r !! "status") as [v|]; [|right; congruence].
  destruct v as [| | | |t| | | |]; try (right; congruence).
  destruct (decide (t = CheckStatus_value s)) as [->|Hne];
    [left; reflexivity | right; congruence].
Defined.

(** The result carries the category [c]. *)
Definition category_is (c : string) (r : dict) : Prop :=
  r !! "category" = Some (VStr c).

#[global] Instance category_is_dec c r : Decision (category_is c r).
Proof.
  unfold category_is.
  destruct (r !! "category") as [v|]; [|right; congruence].
  destruct v as [| | | |t| | | |]; try (right; congruence).
  destruct (decide (t = c)) as [->|Hne];
    [left; reflexivity | right; congruence].
Defined.

(** The text category of a result, when it has one. *)
Definition category_of (r : dict) : option string :=
  match r !! "category" with
  | Some (VStr c) => Some c
  | _ => None
  end.

(** The distinct elements of a list, in the order of their first
    occurrence. *)
Fixpoint first_seen (l : list string) : list string :=
  match l with
  | [] => []
  | x :: l' => x :: filter (fun y => y ≠ x) (first_seen l')
  end.

(** The grouping in the words of the specification: the categories in
    first-seen order, each with its results in their original order. *)
Definition group_by_category_spec (results : list dict) : groups :=
  (fun c => (VStr c, filter (category_is c) results)) <$>
  first_seen (omap category_of results).

(** ** Concrete probes and systems, used to exercise the model *)

Definition now0 : string := "2024-05-01T12:00:00.000000".

(** A probe with the metadata [BaseCheck.__init__] sets and the given
    [check()] outcome. *)
Definition bare_probe (check : outcome pyval) : BaseCheck.t :=
  {| BaseCheck.id := "";
     BaseCheck.title := "";
     BaseCheck.description := "";
     BaseCheck.category := "";
     BaseCheck.severity := MEDIUM;
     BaseCheck.compliance_frameworks := [];
     BaseCheck.remediation := "";
     BaseCheck.check := check |}.

(** [check()] is [raise RuntimeError('boom')]. *)
Definition faulting_probe : BaseCheck.t :=
  bare_probe (Raise (mk_exception RuntimeError "boom")).

(** [check()] returns [{'status': CheckStatus.PASS}] and nothing else. *)
Definition terse_probe : BaseCheck.t :=
  bare_probe (Return (VDict (mkdict [("status", VStatus PASS)]))).

(** [check()] returns [{'status': CheckStatus.FAIL, 'risk': 'exposed'}]. *)
Definition failing_probe : BaseCheck.t :=
  bare_probe (Return (VDict (mkdict [("status", VStatus FAIL);
                                     ("risk", VStr "exposed")]))).

(** A macOS host whose firewall is on, stealth mode off. *)
Definition env_firewall_on : environment :=
  {| subprocess_run := fun args =>
       Return {| returncode := 0;
                 stdout := if bool_decide (args = [socketfilterfw; "--getglobalstate"])
                           then "Firewall is enabled. (State = 1)"
                           else "Firewall stealth mode is off";
                 stderr := "" |};
     os_path_exists := fun _ => true;
     open_read := fun _ => Return "" |}.

(** A host on which every command runs out of time. *)
Definition env_timeout : environment :=
  {| subprocess_run := fun _ =>
       Raise (mk_exception TimeoutExpired
               "Command '['softwareupdate', '-l']' timed out after 30 seconds");
     os_path_exists := fun _ => false;
     open_read := fun _ =>
       Raise (mk_exception FileNotFoundError "[Errno 2] No such file or directory") |}.

(** A result reduced to the two fields the aggregator reads. *)
Definition sample_result (category status : string) : dict :=
  mkdict [("category", VStr category); ("status", VStr status)].

(** The results of a scan of three probes: one passed, one failed, one
    faulted. *)
Definition sample_results : list dict :=
  [sample_result "Network Security" "PASS";
   sample_result "System Updates" "FAIL";
   sample_result "Network Security" "ERROR"].

(* ===================================================================== *)
(** * The rest of the code

    The two other shipped probes ([FileVaultCheck], [ScreenLockCheck]), the
    list of probes of a scan, the presentation helpers and the export of
    [dashboard.py], and [ConfigLoader] ([src/core/config_loader.py]). *)
(* ===================================================================== *)

(** ** [int(s)], [a / b] with overflow, and [format(x, '.0f')] *)

Module PyNum.

(** [c] is one of the ASCII digits. *)
Definition is_digit (c : Ascii.ascii) : bool :=
  let n := Ascii.nat_of_ascii c in ((48 <=? n) && (n <=? 57))%nat.

Definition digit_value (c : Ascii.ascii) : Z :=
  Z.of_nat (Ascii.nat_of_ascii c) - 48.

(** The digits of a decimal literal, after the sign: digits, with single
    underscores allowed between two digits.  [after_digit] tells whether the
    previous character was a digit; the result is the value and the number of
    digits read. *)
Fixpoint parse_digits (s : string) (after_digit : bool) (acc : Z) (count : nat)
    : option (Z * nat) :=
  match s with
  | EmptyString => if after_digit then Some (acc, count) else None
  | String c s' =>
      if is_digit c then parse_digits s' true (10 * acc + digit_value c) (S count)
      else if Ascii.eqb c "_"%char && after_digit then parse_digits s' false acc count
      else None
  end.

(** A decimal literal: an optional sign, then the digits. *)
Definition parse_literal (s : string) : option (Z * nat) :=
  match s with
  | String "-"%char s' =>
      '(v, count) ← parse_digits s' false 0 0%nat; Some (- v, count)
  | String "+"%char s' => parse_digits s' false 0 0%nat
  | _ => parse_digits s false 0 0%nat
  end.

(** [int(s)] for a [str] of ASCII text (what the probed command prints):
    surrounding whitespace is dropped and the rest must be a decimal
    literal.  [max_digits] is the interpreter's
    [sys.int_max_str_digits] (4300 unless configured; 0, or an interpreter
    without the setting, means no limit): a literal with more digits is
    refused.  Both refusals are a [ValueError]; its text is not modelled (no
    modelled handler reads it). *)
Definition int (max_digits : nat) (s : string) : outcome Z :=
  match parse_literal (PyStr.strip s) with
  | Some (v, count) =>
      if ((0 <? max_digits) && (max_digits <? count))%nat
      then Raise (mk_exception ValueError "Exceeds the limit for integer string conversion")
      else mret v
  | None => Raise (mk_exception ValueError "invalid literal for int() with base 10")
  end.

(** [a / b] on integers, with both of its errors: a zero divisor, and a
    quotient that rounds beyond the largest [float].  The class of the
    latter, [OverflowError], has no constructor in [exc_class]; it is held
    as [Exception], its nearest ancestor there (no modelled handler names a
    class between the two). *)
Definition truediv (a b : Z) : outcome Q :=
  if b =? 0 then Raise (mk_exception ZeroDivisionError "division by zero")
  else
    let q := b64_round (inject_Z a / inject_Z b) in
    if Qle_bool (Qpower 2 1024) (Qabs q)
    then Raise (mk_exception Exception "integer division result too large for a float")
    else mret q.

(** [format(x, '.0f')] for a [float]: the integer nearest to [x], half to
    even on its exact value, in decimal; the sign of a negative [x] is kept
    also when the digits are zero. *)
Definition format_0f (x : Q) : string :=
  if Qle_bool 0 x then pretty (round_half_even x)
  else "-" +:+ pretty (Z.abs (round_half_even x)).

End PyNum.

(** The double quote character, for text that holds one. *)
Definition dquote : string := String "034"%char EmptyString.

(** ** [FileVaultCheck] ([src/checks/system/filevault_check.py]) *)

Definition FileVaultCheck_check (env : environment) : outcome pyval :=
  try_except
    (result ← subprocess_run env ["fdesetup"; "status"];
     let output := PyStr.strip (stdout result) in
     if PyStr.contains "FileVault is On" output then
       mret (VDict (mkdict [
         ("status", VStatus PASS);
         ("finding", VStr "FileVault disk encryption is enabled");
         ("evidence", VDict (mkdict [
            ("filevault_enabled", VBool true);
            ("status", VStr output)]));
         ("risk", VStr "None")]))
     else if PyStr.contains "FileVault is Off" output then
       mret (VDict (mkdict [
         ("status", VStatus FAIL);
         ("finding", VStr "FileVault disk encryption is DISABLED");
         ("evidence", VDict (mkdict [
            ("filevault_enabled", VBool false);
            ("status", VStr output)]));
         ("risk", VStr "CRITICAL - Data at rest is not encrypted. If device is lost or stolen, all data is accessible.")]))
     else if PyStr.contains "Encryption in progress" output then
       mret (VDict (mkdict [
         ("status", VStatus WARNING);
         ("finding", VStr "FileVault encryption is in progress");
         ("evidence", VDict (mkdict [
            ("filevault_enabled", VBool true);
            ("encryption_in_progress", VBool true);
            ("status", VStr output)]));
         ("risk", VStr "Low - Encryption is being applied but not yet complete")]))
     else
       mret (VDict (mkdict [
         ("status", VStatus WARNING);
         ("finding", VStr "FileVault status unclear");
         ("evidence", VDict (mkdict [("status", VStr output)]));
         ("risk", VStr "Unable to determine encryption status")])))
    Exception
    (fun e =>
       mret (VDict (mkdict [
         ("status", VStatus ERROR);
         ("finding", VStr "Could not check FileVault status");
         ("evidence", VDict (mkdict [("error", VStr (exc_str e))]));
         ("risk", VStr "Unable to verify disk encryption")]))).

Definition FileVaultCheck (env : environment) : BaseCheck.t :=
  {| BaseCheck.id := "CIS-2.6.1";
     BaseCheck.title := "Ensure FileVault Is Enabled";
     BaseCheck.description :=
       "FileVault provides full disk encryption to protect data at rest";
     BaseCheck.category := "Data Protection";
     BaseCheck.severity := CRITICAL;
     BaseCheck.compliance_frameworks :=
       ["CIS_macOS_14"; "NIST_CSF_PR.DS-1"; "ISO27001_A.10.1.1"; "PCI_DSS_3.4"];
     BaseCheck.remediation := "
To enable FileVault:
1. Open System Settings → Privacy & Security → FileVault
2. Click " +:+ dquote +:+ "Turn On FileVault" +:+ dquote +:+ "
3. Save recovery key in a secure location
4. Restart the system to begin encryption
5. Or run: sudo fdesetup enable
";
     BaseCheck.check := FileVaultCheck_check env |}.

(** ** [ScreenLockCheck] ([src/checks/access_control/screen_lock_check.py]) *)

(** [max_digits] is the interpreter's limit on the digits [int] accepts (see
    [PyNum.int]). *)
Definition ScreenLockCheck_check (max_digits : nat) (env : environment)
    : outcome pyval :=
  try_excepts
    (result ← subprocess_run env
                ["defaults"; "read"; "com.apple.screensaver"; "idleTime"];
     if returncode result =? 0 then
       idle_seconds ← PyNum.int max_digits (PyStr.strip (stdout result));
       idle_minutes ← PyNum.truediv idle_seconds 60;
       if (0 <? idle_seconds) && (idle_seconds <=? 1200) then
         mret (VDict (mkdict [
           ("status", VStatus PASS);
           ("finding", VStr ("Screen lock timeout is set to "
                             +:+ PyNum.format_0f idle_minutes
                             +:+ " minutes (within recommended 20 minutes)"));
           ("evidence", VDict (mkdict [
              ("timeout_seconds", VInt idle_seconds);
              ("timeout_minutes", VFloat idle_minutes);
              ("recommended_max", VInt 20)]));
           ("risk", VStr "None")]))
       else if 1200 <? idle_seconds then
         mret (VDict (mkdict [
           ("status", VStatus FAIL);
           ("finding", VStr ("Screen lock timeout is "
                             +:+ PyNum.format_0f idle_minutes
                             +:+ " minutes (exceeds recommended 20 minutes)"));
           ("evidence", VDict (mkdict [
              ("timeout_seconds", VInt idle_seconds);
              ("timeout_minutes", VFloat idle_minutes);
              ("recommended_max", VInt 20)]));
           ("risk", VStr "Extended timeout increases risk of unauthorized access if user leaves workstation unattended")]))
       else
         mret (VDict (mkdict [
           ("status", VStatus FAIL);
           ("finding", VStr "Screen lock timeout is not configured (set to 0 or never)");
           ("evidence", VDict (mkdict [
              ("timeout_seconds", VInt idle_seconds);
              ("configured", VBool false)]));
           ("risk", VStr "HIGH - Screen will never lock automatically, allowing unauthorized access")]))
     else
       mret (VDict (mkdict [
         ("status", VStatus WARNING);
         ("finding", VStr "Screen lock timeout setting not found (may be using system default)");
         ("evidence", VDict (mkdict [
            ("configured", VBool false);
            ("error", VStr (stderr result))]));
         ("risk", VStr "Unclear - unable to verify timeout configuration")])))
    [(ValueError, fun _ =>
        mret (VDict (mkdict [
          ("status", VStatus ERROR);
          ("finding", VStr "Could not parse screen lock timeout value");
          ("evidence", VDict (mkdict [("error", VStr "Invalid timeout value")]));
          ("risk", VStr "Unable to verify screen lock configuration")])));
     (Exception, fun e =>
        mret (VDict (mkdict [
          ("status", VStatus ERROR);
          ("finding", VStr "Could not check screen lock timeout");
          ("evidence", VDict (mkdict [("error", VStr (exc_str e))]));
          ("risk", VStr "Unable to verify screen lock configuration")])))].

Definition ScreenLockCheck (max_digits : nat) (env : environment) : BaseCheck.t :=
  {| BaseCheck.id := "CIS-5.9";
     BaseCheck.title := "Ensure Screen Lock Timeout is Set to 20 Minutes or Less";
     BaseCheck.description :=
       "Automatic screen lock prevents unauthorized access when user is away";
     BaseCheck.category := "Access Control";
     BaseCheck.severity := MEDIUM;
     BaseCheck.compliance_frameworks :=
       ["CIS_macOS_14"; "NIST_CSF_PR.AC-7"; "ISO27001_A.11.2.8"];
     BaseCheck.remediation := "
To configure screen lock:
1. Open System Settings → Lock Screen
2. Set " +:+ dquote +:+ "Start Screen Saver when inactive" +:+ dquote +:+ " to 20 minutes or less
3. Enable " +:+ dquote +:+ "Require password after screen saver begins" +:+ dquote +:+ "
4. Set password requirement to " +:+ dquote +:+ "immediately" +:+ dquote +:+ "
";
     BaseCheck.check := ScreenLockCheck_check max_digits env |}.

(** ** The probes of a scan ([dashboard.py], [run_all_checks], lines 61-67) *)

(** The list [checks] that [run_all_checks] builds, in its order. *)
Definition shipped_checks (max_digits : nat) (env : environment) : list BaseCheck.t :=
  [SoftwareUpdatesCheck env;
   FirewallCheck env;
   FileVaultCheck env;
   ScreenLockCheck max_digits env;
   SSHConfigCheck env].

(** ** Presentation helpers of the dashboard ([dashboard.py]) *)

(** [icons.get(status, ...)] in [get_status_icon]: the key is hashed, and
    only a text can equal one of the four text keys. *)
Definition get_status_icon (status : pyval) : outcome string :=
  _ ← py_hash status;
  mret (if py_eq_str status "PASS" then "✅"
        else if py_eq_str status "FAIL" then "❌"
        else if py_eq_str status "WARNING" then "⚠️"
        else if py_eq_str status "ERROR" then "❓"
        else "❓").

(** [v >= n] for an integer literal [n]: numbers compare by value, any
    other type raises. *)
Definition py_ge_int (v : pyval) (n : Z) : outcome bool :=
  match py_num v with
  | Some x => mret (Qle_bool (inject_Z n) x)
  | None =>
      Raise (mk_exception TypeError
               ("'>=' not supported between instances of '" +:+ type_name v
                +:+ "' and 'int'"))
  end.

Definition get_score_color (score : pyval) : outcome string :=
  ge80 ← py_ge_int score 80;
  if ge80 : bool then mret "#44dd88"
  else
    ge60 ← py_ge_int score 60;
    if ge60 : bool then mret "#88dd44"
    else
      ge40 ← py_ge_int score 40;
      if ge40 : bool then mret "#ffdd44"
      else
        ge20 ← py_ge_int score 20;
        if ge20 : bool then mret "#ff9944" else mret "#ff4444".

(** ** The rows of the CSV export ([dashboard.py], [main], lines 278-286) *)

(** The dictionary built for one result [r]. *)
Definition export_row (r : dict) : outcome dict :=
  id ← py_getitem r "id";
  title ← py_getitem r "title";
  category ← py_getitem r "category";
  status ← py_getitem r "status";
  severity ← py_getitem r "severity";
  finding ← py_getitem r "finding";
  risk ← py_get (VDict r) "risk" (VStr "N/A");
  mret (mkdict [
    ("ID", id);
    ("Title", title);
    ("Category", category);
    ("Status", status);
    ("Severity", severity);
    ("Finding", finding);
    ("Risk", risk)
  ]).

(** The list comprehension [[{...} for r in results]]. *)
Fixpoint export_rows (results : list dict) : outcome (list dict) :=
  match results with
  | [] => mret []
  | r :: rest =>
      row ← export_row r;
      rows ← export_rows rest;
      mret (row :: rows)
  end.

(** ** [ConfigLoader] ([src/core/config_loader.py]) *)

Module ConfigLoader.

(** A loader: the path it was given and the configuration it read. *)
Record t := mk {
  config_path : string;
  config : pyval
}.

(** [_load_config]; [yaml_safe_load] is what [yaml.safe_load] makes of the
    text of the file (a value, or the exception of a malformed document). *)
Definition _load_config (env : environment)
    (yaml_safe_load : string → outcome pyval) (config_path : string)
    : outcome pyval :=
  if negb (os_path_exists env config_path) then
    Raise (mk_exception FileNotFoundError
             ("Configuration file not found: " +:+ config_path))
  else
    f ← open_read env config_path;
    yaml_safe_load f.

(** [ConfigLoader(config_path)]. *)
Definition __init__ (env : environment)
    (yaml_safe_load : string → outcome pyval) (config_path : string)
    : outcome t :=
  config ← _load_config env yaml_safe_load config_path;
  mret (mk config_path config).

(** The loop of [get] over the components of the key. *)
Fixpoint get_from (keys : list string) (value default : pyval) : pyval :=
  match keys with
  | [] => value
  | k :: rest =>
      match value with
      | VDict d =>
          match d !! k with
          | None | Some VNone => default
          | Some value' => get_from rest value' default
          end
      | _ => default
      end
  end.

Definition get (self : t) (key : string) (default : pyval) : pyval :=
  get_from (PyStr.split "."%char key) (config self) default.

Definition get_scanning_config (self : t) : outcome pyval :=
  py_get (config self) "scanning" (VDict ∅).

Definition get_reporting_config (self : t) : outcome pyval :=
  py_get (config self) "reporting" (VDict ∅).

Definition get_scoring_config (self : t) : outcome pyval :=
  py_get (config self) "scoring" (VDict ∅).

End ConfigLoader.

(** ** Specification vocabulary, continued *)

(** The computation returns, or raises within [Exception]. *)
Definition contained {A} (m : outcome A) : Prop :=
  ∀ e, m = Raise e → isinstance e Exception = true.

(** No call into the system is interrupted: every command and every file
    read returns, or raises an exception that derives from [Exception]. *)
Definition env_contained (env : environment) : Prop :=
  (∀ args, contained (subprocess_run env args)) ∧
  (∀ path, contained (open_read env path)).

(** An outcome as the shipped probes report it: exactly the four dynamic
    fields, with a status other than [NOT_APPLICABLE], a finding text, an
    evidence dictionary and a risk text that is not empty. *)
Definition reported_outcome (o : dict) : Prop :=
  dom o = list_to_set ["status"; "finding"; "evidence"; "risk"] ∧
  (∃ s, o !! "status" = Some (VStatus s) ∧ s ≠ NOT_APPLICABLE) ∧
  (∃ t, o !! "finding" = Some (VStr t)) ∧
  (∃ ev, o !! "evidence" = Some (VDict ev)) ∧
  (∃ t, o !! "risk" = Some (VStr t) ∧ t ≠ "").

(** The keys of a result that the export reads with [r[...]]. *)
Definition export_keys : list string :=
  ["id"; "title"; "category"; "status"; "severity"; "finding"].

(** The row of the export is that of the result [r]: the seven columns, six
    copied from the keys of [r] and [Risk] from its risk, "N/A" without one. *)
Definition row_of (r row : dict) : Prop :=
  dom row = list_to_set ["ID"; "Title"; "Category"; "Status"; "Severity";
                         "Finding"; "Risk"] ∧
  row !! "ID" = r !! "id" ∧
  row !! "Title" = r !! "title" ∧
  row !! "Category" = r !! "category" ∧
  row !! "Status" = r !! "status" ∧
  row !! "Severity" = r !! "severity" ∧
  row !! "Finding" = r !! "finding" ∧
  row !! "Risk" = Some (default (VStr "N/A") (r !! "risk")).

(** The five colours of the score box, best first. *)
Definition score_colors : list string :=
  ["#44dd88"; "#88dd44"; "#ffdd44"; "#ff9944"; "#ff4444"].

(** ** Further concrete systems and inputs *)




(** A loader whose document has a [scanning] section and a [reporting]
    section left empty. *)
Definition sample_loader : ConfigLoader.t :=
  ConfigLoader.mk "config.yaml"
    (VDict (mkdict [
       ("scanning", VDict (mkdict [("frameworks", VList [VStr "CIS"])]));
       ("reporting", VNone)])).

(* ===================================================================== *)
(** * Properties *)
(* ===================================================================== *)

(** ** Outcomes and dictionaries *)

(** The value a dictionary display gives to [k]: that of the last entry
    with key [k]. *)
Lemma mkdict_from_lookup (entries : list (string * pyval)) (acc : dict) (k : string) :
  fold_left (fun d kv => <[kv.1 := kv.2]> d) entries acc !! k =
  match list_find (fun kv => kv.1 = k) (reverse entries) with
  | Some (_, kv) => Some kv.2
  | None => acc !! k
  end.
Proof.
  revert acc. induction entries as [|[k' v] entries IH]; intros acc; [done|].
  cbn [fold_left]. rewrite IH, reverse_cons. cbn [fst snd].
  destruct (list_find _ (reverse entries)) as [[i kv]|] eqn:Hfind.
  - by erewrite list_find_app_l.
  - rewrite list_find_app_r by done. cbn.
    case_decide as Hk; cbn in *.
    + subst. by rewrite lookup_insert_eq.
    + by rewrite lookup_insert_ne.
Qed.

Lemma mkdict_lookup (entries : list (string * pyval)) (k : string) :
  mkdict entries !! k =
  match list_find (fun kv => kv.1 = k) (reverse entries) with
  | Some (_, kv) => Some kv.2
  | None => None
  end.
Proof. unfold mkdict. by rewrite mkdict_from_lookup, lookup_empty. Qed.

(** The keys of a dictionary display. *)
Lemma dom_mkdict_from (entries : list (string * pyval)) (acc : dict) :
  dom (fold_left (fun d kv => <[kv.1 := kv.2]> d) entries acc) =
  list_to_set entries.*1 ∪ dom acc.
Proof.
  revert acc. induction entries as [|[k v] entries IH]; intros acc; cbn.
  - set_solver.
  - rewrite IH, dom_insert_L. set_solver.
Qed.

Lemma dom_mkdict (entries : list (string * pyval)) :
  dom (mkdict entries) = list_to_set entries.*1.
Proof. unfold mkdict. rewrite dom_mkdict_from, dom_empty_L. set_solver. Qed.

(** Looks a literal key up in a dictionary display. *)
Ltac dict_lookup := rewrite mkdict_lookup; reflexivity.

(** One step of the outcome monad and of the attribute reads of [run]. *)
Ltac run_step :=
  cbv [mbind outcome_bind mret outcome_ret py_get py_value try_except from_option].

(** One step of the outcome monad and of the [try] statements of a probe. *)
Ltac probe_step :=
  cbv [mbind outcome_bind mret outcome_ret try_except try_excepts].

(** ** The execution wrapper *)

(** When [check()] returns a dictionary whose status can be read, the [try]
    block of [run] completes, and this is what it returns. *)
Lemma run_try_completes (self : BaseCheck.t) (now : string) (o : dict) (t : string) :
  BaseCheck.check self = Return (VDict o) →
  status_text o = Some t →
  ∃ d, BaseCheck.run_try self now = Return d ∧
    BaseCheck.run self now = Return d ∧
    dom d = list_to_set result_keys ∧
    d !! "id" = Some (VStr (BaseCheck.id self)) ∧
    d !! "title" = Some (VStr (BaseCheck.title self)) ∧
    d !! "description" = Some (VStr (BaseCheck.description self)) ∧
    d !! "category" = Some (VStr (BaseCheck.category self)) ∧
    d !! "severity" = Some (VStr (Severity_value (BaseCheck.severity self))) ∧
    d !! "compliance_frameworks" =
      Some (VList (VStr <$> BaseCheck.compliance_frameworks self)) ∧
    d !! "status" = Some (VStr t) ∧
    d !! "finding" = Some (default (VStr "No finding recorded") (o !! "finding")) ∧
    d !! "evidence" = Some (default VNone (o !! "evidence")) ∧
    d !! "risk" = Some (default (VStr "") (o !! "risk")) ∧
    d !! "remediation" =
      Some (default (VStr (BaseCheck.remediation self)) (o !! "remediation")) ∧
    d !! "timestamp" = Some (VStr now) ∧
    d !! "error" = Some VNone.
Proof.
  intros Hcheck Ht. unfold BaseCheck.run, BaseCheck.run_try, status_text in *.
  rewrite Hcheck.
  destruct (o !! "status") as [[| | | | |s|s| |]|] eqn:Hs; simplify_eq;
    (eexists; split; [run_step; rewrite Hs; reflexivity|]);
    (split; [run_step; rewrite Hs; reflexivity|]);
    (split; [rewrite dom_mkdict; reflexivity|]);
    repeat split; dict_lookup.
Qed.

(** Otherwise the [try] block raises: the exception of [check()] itself, or
    the [AttributeError] of reading a return value that is no outcome. *)
Lemma run_try_cases (self : BaseCheck.t) (now : string) :
  (∃ o t, BaseCheck.check self = Return (VDict o) ∧ status_text o = Some t) ∨
  (∃ e, BaseCheck.run_try self now = Raise e ∧
        (BaseCheck.check self = Raise e ∨
         (∃ v, BaseCheck.check self = Return v ∧
               ∀ o, v = VDict o → status_text o = None) ∧
         exc_type e = AttributeError)).
Proof.
  unfold BaseCheck.run_try, status_text.
  destruct (BaseCheck.check self) as [v|e]; [|right; eauto].
  destruct v as [| | | | | | | |o];
    try (right; eexists; split; [reflexivity|right; split; [|done]];
         eexists; split; [done|]; intros ?; discriminate).
  destruct (o !! "status") as [[| | | | |s|s| |]|] eqn:Hs;
    try (left; exists o; eexists; split; [reflexivity|rewrite Hs; reflexivity]);
    right; eexists; (split; [run_step; rewrite Hs; reflexivity|right; split; [|done]]);
    eexists; (split; [done|]); intros ? [= <-]; by rewrite Hs.
Qed.

(** A conforming outcome is one whose status can be read. *)
Lemma returns_outcome_status_text (self : BaseCheck.t) (o : dict) :
  returns_outcome self o →
  status_text o = Some (match o !! "status" with
                        | Some (VStatus s) => CheckStatus_value s
                        | _ => CheckStatus_value ERROR
                        end).
Proof. intros [_ [Hs|[s Hs]]]; unfold status_text; by rewrite Hs. Qed.

(** C9. When [check()] returns an outcome dictionary, [run] merges it onto
    the static metadata of the probe: the six metadata fields are the
    probe's, the status is the [.value] of the returned member ([ERROR] when
    the outcome has none), [finding] defaults to the text
    "No finding recorded" and [remediation] to the probe's static
    remediation when the outcome omits them, [evidence] and [risk] default
    to [None] and to the empty text, the timestamp is the clock reading and
    [error] is [None]. *)
Theorem run_merges_outcome (self : BaseCheck.t) (now : string) (o : dict) :
  returns_outcome self o →
  ∃ d, BaseCheck.run self now = Return d ∧
    d !! "id" = Some (VStr (BaseCheck.id self)) ∧
    d !! "title" = Some (VStr (BaseCheck.title self)) ∧
    d !! "description" = Some (VStr (BaseCheck.description self)) ∧
    d !! "category" = Some (VStr (BaseCheck.category self)) ∧
    d !! "severity" = Some (VStr (Severity_value (BaseCheck.severity self))) ∧
    d !! "compliance_frameworks" =
      Some (VList (VStr <$> BaseCheck.compliance_frameworks self)) ∧
    d !! "status" =
      Some (VStr (match o !! "status" with
                  | Some (VStatus s) => CheckStatus_value s
                  | _ => CheckStatus_value ERROR
                  end)) ∧
    d !! "finding" = Some (default (VStr "No finding recorded") (o !! "finding")) ∧
    d !! "evidence" = Some (default VNone (o !! "evidence")) ∧
    d !! "risk" = Some (default (VStr "") (o !! "risk")) ∧
    d !! "remediation" =
      Some (default (VStr (BaseCheck.remediation self)) (o !! "remediation")) ∧
    d !! "timestamp" = Some (VStr now) ∧
    d !! "error" = Some VNone.
Proof.
  intros Hout.
  destruct (run_try_completes self now o _ (proj1 Hout)
              (returns_outcome_status_text self o Hout))
    as (d & _ & Hrun & _ & Hfields).
  exists d. split; assumption.
Qed.

Lemma run_merges_outcome_witness :
  returns_outcome terse_probe (mkdict [("status", VStatus PASS)]) ∧
  ∃ d, BaseCheck.run terse_probe now0 = Return d ∧
    d !! "status" = Some (VStr "PASS") ∧
    d !! "finding" = Some (VStr "No finding recorded") ∧
    d !! "remediation" = Some (VStr "") ∧
    d !! "timestamp" = Some (VStr now0) ∧
    d !! "error" = Some VNone.
Proof.
  assert (returns_outcome terse_probe (mkdict [("status", VStatus PASS)])) as H.
  { split; [reflexivity|]. right. exists PASS. reflexivity. }
  split; [exact H|].
  destruct (run_merges_outcome terse_probe now0 _ H)
    as (d & Hrun & _ & _ & _ & _ & _ & _ & Hs & Hf & _ & _ & Hr & Ht & He).
  exists d. repeat split; assumption.
Defined.

(** The result of the fault path, field by field. *)
Lemma run_except_fields (self : BaseCheck.t) (now : string) (e : exception) :
  ∃ d, BaseCheck.run_except self now e = Return d ∧
    dom d = list_to_set result_keys ∖ {["compliance_frameworks"]} ∧
    d !! "id" = Some (VStr (BaseCheck.id self)) ∧
    d !! "title" = Some (VStr (BaseCheck.title self)) ∧
    d !! "description" = Some (VStr (BaseCheck.description self)) ∧
    d !! "category" = Some (VStr (BaseCheck.category self)) ∧
    d !! "severity" = Some (VStr (Severity_value (BaseCheck.severity self))) ∧
    d !! "compliance_frameworks" = None ∧
    d !! "status" = Some (VStr "ERROR") ∧
    d !! "finding" = Some (VStr "Check execution failed") ∧
    d !! "evidence" = Some VNone ∧
    d !! "risk" = Some (VStr "") ∧
    d !! "remediation" = Some (VStr "") ∧
    d !! "timestamp" = Some (VStr now) ∧
    d !! "error" = Some (VStr (exc_str e)).
Proof.
  unfold BaseCheck.run_except. eexists; split; [reflexivity|].
  split; [rewrite dom_mkdict; compute_done|].
  repeat split; dict_lookup.
Qed.

(** When the [try] block raises within [Exception], [run] is its handler;
    when it raises outside, so does [run]. *)
Lemma run_on_raise (self : BaseCheck.t) (now : string) (e : exception) :
  BaseCheck.run_try self now = Raise e →
  BaseCheck.run self now =
    if isinstance e Exception then BaseCheck.run_except self now e else Raise e.
Proof. intros Htry. unfold BaseCheck.run. by rewrite Htry. Qed.

Lemma run_on_exception (self : BaseCheck.t) (now : string) (e : exception) :
  raises_exception self e →
  BaseCheck.run self now = BaseCheck.run_except self now e.
Proof.
  intros [He Hexc]. rewrite (run_on_raise self now e), Hexc; [done|].
  unfold BaseCheck.run_try. by rewrite He.
Qed.

(** C2. When [check()] raises an exception, the result of [run] has status
    "ERROR", finding "Check execution failed", evidence [None], an [error]
    that is the text of the exception (hence not [None]), an empty
    remediation and the clock reading as timestamp (hence not [None]). *)
Theorem run_fault_result (self : BaseCheck.t) (now : string) (e : exception) :
  raises_exception self e →
  ∃ d, BaseCheck.run self now = Return d ∧
    d !! "status" = Some (VStr "ERROR") ∧
    d !! "finding" = Some (VStr "Check execution failed") ∧
    d !! "evidence" = Some VNone ∧
    d !! "error" = Some (VStr (exc_str e)) ∧
    d !! "error" ≠ Some VNone ∧
    d !! "remediation" = Some (VStr "") ∧
    d !! "timestamp" = Some (VStr now) ∧
    d !! "timestamp" ≠ Some VNone.
Proof.
  intros Hexc. rewrite (run_on_exception self now e Hexc).
  destruct (run_except_fields self now e)
    as (d & Hrun & _ & _ & _ & _ & _ & _ & _ & Hs & Hf & Hev & _ & Hr & Ht & He).
  exists d. rewrite He, Ht. repeat split; try assumption; discriminate.
Qed.

Lemma run_fault_result_witness :
  raises_exception faulting_probe (mk_exception RuntimeError "boom") ∧
  ∃ d, BaseCheck.run faulting_probe now0 = Return d ∧
    d !! "status" = Some (VStr "ERROR") ∧
    d !! "finding" = Some (VStr "Check execution failed") ∧
    d !! "evidence" = Some VNone ∧
    d !! "error" = Some (VStr "boom") ∧
    d !! "error" ≠ Some VNone ∧
    d !! "remediation" = Some (VStr "") ∧
    d !! "timestamp" = Some (VStr now0) ∧
    d !! "timestamp" ≠ Some VNone.
Proof.
  assert (raises_exception faulting_probe (mk_exception RuntimeError "boom")) as H.
  { split; reflexivity. }
  split; [exact H|].
  exact (run_fault_result faulting_probe now0 _ H).
Defined.

(** C10. The two paths of [run] return different schemas.  When [check()]
    raises an exception the result has no ["compliance_frameworks"] key: its
    keys are the other twelve.  When [check()] returns an outcome the result
    has the key, with the probe's frameworks, among all thirteen. *)
Theorem compliance_frameworks_only_on_success (self : BaseCheck.t) (now : string) :
  (∀ e, raises_exception self e →
     ∃ d, BaseCheck.run self now = Return d ∧
       d !! "compliance_frameworks" = None ∧
       dom d = list_to_set result_keys ∖ {["compliance_frameworks"]}) ∧
  (∀ o, returns_outcome self o →
     ∃ d, BaseCheck.run self now = Return d ∧
       d !! "compliance_frameworks" =
         Some (VList (VStr <$> BaseCheck.compliance_frameworks self)) ∧
       dom d = list_to_set result_keys).
Proof.
  split.
  - intros e Hexc. rewrite (run_on_exception self now e Hexc).
    destruct (run_except_fields self now e)
      as (d & Hrun & Hdom & _ & _ & _ & _ & _ & Hcf & _).
    eauto.
  - intros o Hout.
    destruct (run_try_completes self now o _ (proj1 Hout)
                (returns_outcome_status_text self o Hout))
      as (d & _ & Hrun & Hdom & _ & _ & _ & _ & _ & Hcf & _).
    eauto.
Qed.

Lemma compliance_frameworks_only_on_success_witness :
  (raises_exception faulting_probe (mk_exception RuntimeError "boom") ∧
   ∃ d, BaseCheck.run faulting_probe now0 = Return d ∧
     d !! "compliance_frameworks" = None ∧
     dom d = list_to_set result_keys ∖ {["compliance_frameworks"]}) ∧
  (returns_outcome terse_probe (mkdict [("status", VStatus PASS)]) ∧
   ∃ d, BaseCheck.run terse_probe now0 = Return d ∧
     d !! "compliance_frameworks" = Some (VList []) ∧
     dom d = list_to_set result_keys).
Proof.
  assert (raises_exception faulting_probe (mk_exception RuntimeError "boom")) as Hf.
  { split; reflexivity. }
  assert (returns_outcome terse_probe (mkdict [("status", VStatus PASS)])) as Ht.
  { split; [reflexivity|]. right. exists PASS. reflexivity. }
  split; (split; [assumption|]).
  - exact (proj1 (compliance_frameworks_only_on_success faulting_probe now0) _ Hf).
  - exact (proj2 (compliance_frameworks_only_on_success terse_probe now0) _ Ht).
Defined.

(** Within the contract [run] never raises: it returns one dictionary, which
    holds at least the twelve keys that both paths write. *)
Lemma run_never_raises (self : BaseCheck.t) (now : string) :
  in_contract self →
  ∃ d, BaseCheck.run self now = Return d ∧
    list_to_set result_keys ∖ {["compliance_frameworks"]} ⊆ dom d.
Proof.
  intros Hin.
  destruct (run_try_cases self now) as [(o & t & Hcheck & Ht)|(e & Htry & He)].
  - destruct (run_try_completes self now o t Hcheck Ht)
      as (d & _ & Hrun & Hdom & _).
    exists d. split; [done|]. rewrite Hdom. set_solver.
  - assert (isinstance e Exception = true) as Hexc.
    { destruct He as [He|[_ He]].
      - destruct Hin as [[v Hv]|[e' [He' Hexc]]]; congruence.
      - unfold isinstance. by rewrite He. }
    rewrite (run_on_raise self now e Htry), Hexc.
    destruct (run_except_fields self now e) as (d & Hrun & Hdom & _).
    exists d. split; [done|]. by rewrite Hdom.
Qed.

(** C1, at a probe whose [check()] raises.  [run] does return one dictionary
    and does not raise, but the dictionary is not a complete result: it has
    no ["compliance_frameworks"] entry. *)
Theorem run_fault_result_incomplete :
  ∃ d, BaseCheck.run faulting_probe now0 = Return d ∧
    d !! "compliance_frameworks" = None ∧
    ¬ complete_result d.
Proof.
  assert (raises_exception faulting_probe (mk_exception RuntimeError "boom")) as Hf.
  { split; reflexivity. }
  rewrite (run_on_exception faulting_probe now0 _ Hf).
  destruct (run_except_fields faulting_probe now0 (mk_exception RuntimeError "boom"))
    as (d & Hrun & _ & _ & _ & _ & _ & _ & Hnone & _).
  exists d. repeat split; [done..|].
  unfold complete_result, result_keys. rewrite Forall_forall.
  intros Hall. destruct (Hall "compliance_frameworks") as [v Hv]; [set_solver|].
  congruence.
Qed.

(** What [run] returned, traced back to what [check()] did. *)
Lemma run_inv (self : BaseCheck.t) (now : string) (d : dict) :
  BaseCheck.run self now = Return d →
  (∃ o t, BaseCheck.check self = Return (VDict o) ∧ status_text o = Some t ∧
     d !! "status" = Some (VStr t) ∧
     d !! "risk" = Some (default (VStr "") (o !! "risk")) ∧
     d !! "error" = Some VNone) ∨
  (∃ e, BaseCheck.run_try self now = Raise e ∧
     isinstance e Exception = true ∧
     (BaseCheck.check self = Raise e ∨
      (∃ v, BaseCheck.check self = Return v ∧
            ∀ o, v = VDict o → status_text o = None) ∧
      exc_type e = AttributeError) ∧
     d !! "status" = Some (VStr "ERROR") ∧
     d !! "risk" = Some (VStr "") ∧
     d !! "error" = Some (VStr (exc_str e))).
Proof.
  intros Hrun.
  destruct (run_try_cases self now) as [(o & t & Hcheck & Ht)|(e & Htry & He)].
  - left. exists o, t.
    destruct (run_try_completes self now o t Hcheck Ht)
      as (d' & _ & Hrun' & _ & _ & _ & _ & _ & _ & _ & Hs & _ & _ & Hr & _ & _ & Herr).
    assert (d' = d) as -> by congruence. eauto 10.
  - right. exists e. rewrite (run_on_raise self now e Htry) in Hrun.
    destruct (isinstance e Exception) eqn:Hexc; [|discriminate].
    destruct (run_except_fields self now e)
      as (d' & Hrun' & _ & _ & _ & _ & _ & _ & _ & Hs & _ & _ & Hr & _ & _ & Herr).
    assert (d' = d) as -> by congruence. eauto 10.
Qed.

(** Only the member [CheckStatus.PASS] has the value "PASS". *)
Lemma status_text_PASS (o : dict) :
  status_text o = Some "PASS" → o !! "status" = Some (VStatus PASS).
Proof.
  unfold status_text.
  destruct (o !! "status") as [[| | | | |s|s| |]|]; try discriminate;
    destruct s; try discriminate; done.
Qed.

(** The value "ERROR" comes from [CheckStatus.ERROR] or from a missing
    status. *)
Lemma status_text_ERROR (o : dict) :
  status_text o = Some "ERROR" →
  o !! "status" = None ∨ o !! "status" = Some (VStatus ERROR).
Proof.
  unfold status_text.
  destruct (o !! "status") as [[| | | | |s|s| |]|]; try discriminate;
    try (destruct s; try discriminate); eauto.
Qed.

(** ** The shipped probes *)

(** [FirewallCheck] reports [PASS] with the risk text "None". *)
Lemma FirewallCheck_pass_risk (env : environment) (o : dict) :
  FirewallCheck_check env = Return (VDict o) →
  o !! "status" = Some (VStatus PASS) →
  o !! "risk" = Some (VStr "None").
Proof.
  unfold FirewallCheck_check.
  destruct (subprocess_run env [socketfilterfw; "--getglobalstate"]) as [r|e];
    probe_step.
  - destruct (PyStr.contains _ _).
    + destruct (subprocess_run env [socketfilterfw; "--getstealthmode"]) as [r'|e'].
      * intros [= <-] _. dict_lookup.
      * destruct (isinstance e' Exception); [|discriminate].
        intros [= <-]. rewrite mkdict_lookup. discriminate.
    + intros [= <-]. rewrite mkdict_lookup. discriminate.
  - destruct (isinstance e Exception); [|discriminate].
    intros [= <-]. rewrite mkdict_lookup. discriminate.
Qed.

(** [SSHConfigCheck] reports [PASS] with the risk text "None" (remote login
    off) or with a "Low" statement (remote login on, configuration clean). *)
Lemma SSHConfigCheck_pass_risk (env : environment) (o : dict) :
  SSHConfigCheck_check env = Return (VDict o) →
  o !! "status" = Some (VStatus PASS) →
  o !! "risk" = Some (VStr "None") ∨
  o !! "risk" = Some (VStr "Low - SSH is configured with security best practices").
Proof.
  unfold SSHConfigCheck_check.
  destruct (subprocess_run env ["sudo"; "systemsetup"; "-getremotelogin"]) as [r|e];
    probe_step.
  - destruct (negb _).
    + intros [= <-] _. left. dict_lookup.
    + destruct (os_path_exists env _).
      * destruct (open_read env _) as [c|e]; probe_step.
        -- destruct (bool_decide _).
           ++ intros [= <-]. rewrite mkdict_lookup. discriminate.
           ++ intros [= <-] _. right. dict_lookup.
        -- destruct (isinstance e PermissionError);
             [|destruct (isinstance e Exception); [|discriminate]];
             intros [= <-]; rewrite mkdict_lookup; discriminate.
      * intros [= <-]. rewrite mkdict_lookup. discriminate.
  - destruct (isinstance e PermissionError);
      [|destruct (isinstance e Exception); [|discriminate]];
      intros [= <-]; rewrite mkdict_lookup; discriminate.
Qed.

(** On a host whose firewall is on, [FirewallCheck] passes with risk "None". *)
Lemma FirewallCheck_on_outcome :
  ∃ o, BaseCheck.check (FirewallCheck env_firewall_on) = Return (VDict o) ∧
    status_text o = Some "PASS" ∧ o !! "risk" = Some (VStr "None").
Proof.
  eexists. split; [reflexivity|]. unfold status_text. split.
  - rewrite mkdict_lookup. reflexivity.
  - dict_lookup.
Qed.

(** On a host where the command times out, [SoftwareUpdatesCheck] returns
    an outcome with status [ERROR]; nothing is raised. *)
Lemma SoftwareUpdatesCheck_timeout_outcome :
  ∃ o, BaseCheck.check (SoftwareUpdatesCheck env_timeout) = Return (VDict o) ∧
    status_text o = Some "ERROR" ∧
    o !! "finding" = Some (VStr "Software update check timed out").
Proof.
  eexists. split; [reflexivity|]. unfold status_text. split.
  - rewrite mkdict_lookup. reflexivity.
  - dict_lookup.
Qed.

(** ** Risk and error fields of a result *)

(** C6, as the code has it.  When a result has status "PASS", [check()]
    returned an outcome with [CheckStatus.PASS] and the risk of the result is
    the risk of that outcome, unchanged: it is the empty text only when the
    outcome omits the risk or holds an empty one. *)
Theorem pass_risk_is_the_outcome_risk (self : BaseCheck.t) (now : string) (d : dict) :
  BaseCheck.run self now = Return d →
  d !! "status" = Some (VStr "PASS") →
  ∃ o, BaseCheck.check self = Return (VDict o) ∧
    o !! "status" = Some (VStatus PASS) ∧
    d !! "risk" = Some (default (VStr "") (o !! "risk")).
Proof.
  intros Hrun Hpass.
  destruct (run_inv self now d Hrun)
    as [(o & t & Hcheck & Ht & Hs & Hr & _)|(e & _ & _ & _ & Hs & _)];
    [|congruence].
  exists o. repeat split; [done| |done].
  apply status_text_PASS. congruence.
Qed.

Lemma pass_risk_is_the_outcome_risk_witness :
  ∃ d, BaseCheck.run terse_probe now0 = Return d ∧
    d !! "status" = Some (VStr "PASS") ∧
    ∃ o, BaseCheck.check terse_probe = Return (VDict o) ∧
      o !! "status" = Some (VStatus PASS) ∧
      d !! "risk" = Some (default (VStr "") (o !! "risk")).
Proof.
  destruct (run_try_completes terse_probe now0
              (mkdict [("status", VStatus PASS)]) "PASS" eq_refl eq_refl)
    as (d & _ & Hrun & _ & _ & _ & _ & _ & _ & _ & Hs & _).
  exists d. split; [exact Hrun|]. split; [exact Hs|].
  exact (pass_risk_is_the_outcome_risk terse_probe now0 d Hrun Hs).
Defined.

(** C6 fails as stated: on a host whose firewall is on, [FirewallCheck]
    yields a result with status "PASS" whose risk is the text "None", not
    the empty text. *)
Lemma firewall_pass_has_risk :
  ∃ d, BaseCheck.run (FirewallCheck env_firewall_on) now0 = Return d ∧
    d !! "status" = Some (VStr "PASS") ∧
    d !! "risk" = Some (VStr "None") ∧
    d !! "risk" ≠ Some (VStr "").
Proof.
  destruct FirewallCheck_on_outcome as (o & Hcheck & Ht & Hrisk).
  destruct (run_try_completes _ now0 o _ Hcheck Ht)
    as (d & _ & Hrun & _ & _ & _ & _ & _ & _ & _ & Hs & _ & _ & Hr & _).
  exists d. rewrite Hr, Hrisk. repeat split; [done..|discriminate].
Qed.

(** C7, as the code has it.  When a result has status "ERROR", its [error]
    is a text exactly when the wrapper intercepted a fault: [check()] raised
    an exception, or returned a value that cannot be read as an outcome.
    When [check()] returned an outcome with [CheckStatus.ERROR], or with no
    status, [error] is [None]. *)
Theorem error_field_follows_the_path (self : BaseCheck.t) (now : string) (d : dict) :
  BaseCheck.run self now = Return d →
  d !! "status" = Some (VStr "ERROR") →
  (∃ e, raises_exception self e ∧ d !! "error" = Some (VStr (exc_str e))) ∨
  (∃ v msg, BaseCheck.check self = Return v ∧
     (∀ o, v = VDict o → status_text o = None) ∧
     d !! "error" = Some (VStr msg)) ∨
  (∃ o, BaseCheck.check self = Return (VDict o) ∧
     (o !! "status" = None ∨ o !! "status" = Some (VStatus ERROR)) ∧
     d !! "error" = Some VNone).
Proof.
  intros Hrun Herror.
  destruct (run_inv self now d Hrun)
    as [(o & t & Hcheck & Ht & Hs & _ & Herr)
       |(e & _ & Hexc & [He|[(v & Hv & Hbad) _]] & _ & _ & Herr)].
  - right; right. exists o. repeat split; [done| |done].
    apply status_text_ERROR. congruence.
  - left. exists e. repeat split; done.
  - right; left. exists v, (exc_str e). done.
Qed.

Lemma error_field_follows_the_path_witness :
  ∃ d, BaseCheck.run faulting_probe now0 = Return d ∧
    d !! "status" = Some (VStr "ERROR") ∧
    ((∃ e, raises_exception faulting_probe e ∧
        d !! "error" = Some (VStr (exc_str e))) ∨
     (∃ v msg, BaseCheck.check faulting_probe = Return v ∧
        (∀ o, v = VDict o → status_text o = None) ∧
        d !! "error" = Some (VStr msg)) ∨
     (∃ o, BaseCheck.check faulting_probe = Return (VDict o) ∧
        (o !! "status" = None ∨ o !! "status" = Some (VStatus ERROR)) ∧
        d !! "error" = Some VNone)).
Proof.
  destruct (run_except_fields faulting_probe now0 (mk_exception RuntimeError "boom"))
    as (d & Hrun & _ & _ & _ & _ & _ & _ & _ & Hs & _).
  exists d. split; [exact Hrun|]. split; [exact Hs|].
  exact (error_field_follows_the_path faulting_probe now0 d Hrun Hs).
Defined.

(** C7 fails as stated: when the update command times out,
    [SoftwareUpdatesCheck] returns its [ERROR] outcome normally, and the
    result has status "ERROR" with [error] equal to [None]. *)
Lemma updates_timeout_error_is_null :
  ∃ d, BaseCheck.run (SoftwareUpdatesCheck env_timeout) now0 = Return d ∧
    d !! "status" = Some (VStr "ERROR") ∧
    d !! "error" = Some VNone.
Proof.
  destruct SoftwareUpdatesCheck_timeout_outcome as (o & Hcheck & Ht & _).
  destruct (run_try_completes _ now0 o _ Hcheck Ht)
    as (d & _ & Hrun & _ & _ & _ & _ & _ & _ & _ & Hs & _ & _ & _ & _ & _ & He).
  exists d. done.
Qed.

(** ** The scan orchestrator *)

(** The loop appends one result per probe to what it was given, in order;
    the result at position [i] is that of running probe [i] at its own clock
    reading. *)
Lemma run_all_checks_from_spec (checks : list BaseCheck.t) (clock : nat → string)
    (idx : nat) (acc : list dict) :
  Forall in_contract checks →
  ∃ results, run_all_checks_from checks clock idx acc = Return (acc ++ results) ∧
    length results = length checks ∧
    ∀ i check, checks !! i = Some check →
      ∃ d, BaseCheck.run check (clock (idx + i)%nat) = Return d ∧
           results !! i = Some d.
Proof.
  intros Hall. revert idx acc.
  induction Hall as [|check checks Hin _ IH]; intros idx acc.
  - exists []. rewrite app_nil_r. repeat split; [done..|]. intros i c [=].
  - destruct (run_never_raises check (clock idx) Hin) as (d & Hrun & _).
    destruct (IH (S idx) (acc ++ [d])) as (results & Hloop & Hlen & Hnth).
    exists (d :: results). cbn [run_all_checks_from]. rewrite Hrun.
    unfold mbind, outcome_bind. rewrite Hloop, <- app_assoc.
    repeat split; [cbn; lia|].
    intros [|i] c Hc; cbn in Hc.
    + injection Hc as <-. exists d. by rewrite Nat.add_0_r.
    + destruct (Hnth i c Hc) as (d' & Hrun' & Hd').
      exists d'. by rewrite Nat.add_succ_r.
Qed.

(** C3. For every list of probes the orchestrator returns a list of results
    of the same length; the result at each position is that of running the
    probe at the same position, whatever the earlier probes did. *)
Theorem run_all_checks_one_result_per_probe (checks : list BaseCheck.t)
    (clock : nat → string) :
  Forall in_contract checks →
  ∃ results, run_all_checks checks clock = Return results ∧
    length results = length checks ∧
    ∀ i check, checks !! i = Some check →
      ∃ d, BaseCheck.run check (clock i) = Return d ∧ results !! i = Some d.
Proof.
  intros Hall.
  destruct (run_all_checks_from_spec checks clock 0 [] Hall)
    as (results & Hrun & Hlen & Hnth).
  exists results. unfold run_all_checks. by rewrite Hrun.
Qed.

Lemma run_all_checks_one_result_per_probe_witness :
  Forall in_contract [terse_probe; faulting_probe; failing_probe] ∧
  ∃ results,
    run_all_checks [terse_probe; faulting_probe; failing_probe] (fun _ => now0)
      = Return results ∧
    length results = 3%nat ∧
    ∀ i check, [terse_probe; faulting_probe; failing_probe] !! i = Some check →
      ∃ d, BaseCheck.run check now0 = Return d ∧ results !! i = Some d.
Proof.
  assert (Forall in_contract [terse_probe; faulting_probe; failing_probe]) as H.
  { apply Forall_cons_2; [left; eexists; reflexivity|].
    apply Forall_cons_2; [right; eexists; split; reflexivity|].
    apply Forall_cons_2; [left; eexists; reflexivity|].
    apply Forall_nil_2. }
  split; [exact H|].
  exact (run_all_checks_one_result_per_probe _ (fun _ => now0) H).
Defined.

(** ** The aggregator *)

(** The comparison [r['status'] == 'PASS'] decides [status_is]. *)
Lemma py_eq_str_status_is (s : CheckStatus) (r : dict) (v : pyval) :
  r !! "status" = Some v →
  py_eq_str v (CheckStatus_value s) = bool_decide (status_is s r).
Proof.
  intros Hv.
  destruct (bool_decide_reflect (status_is s r)) as [H|H];
    unfold status_is in H; rewrite Hv in H.
  - injection H as ->. cbn. by apply bool_decide_eq_true.
  - destruct v; try done. cbn. apply bool_decide_eq_false. congruence.
Qed.

(** The generator sum counts the results that carry the status. *)
Lemma count_status_from_spec (s : CheckStatus) (results : list dict) (acc : Z) :
  Forall (fun r => is_Some (r !! "status")) results →
  count_status_from (CheckStatus_value s) results acc =
  Return (acc + Z.of_nat (length (filter (status_is s) results))).
Proof.
  intros Hall. revert acc.
  induction Hall as [|r results [v Hv] _ IH]; intros acc; cbn [count_status_from].
  - cbn. f_equal. lia.
  - unfold py_getitem. rewrite Hv. cbv [mbind outcome_bind].
    rewrite IH, (py_eq_str_status_is s r v Hv), filter_cons.
    destruct (decide (status_is s r)) as [H|H].
    + rewrite (bool_decide_eq_true_2 _ H). cbn [length]. f_equal. lia.
    + rewrite (bool_decide_eq_false_2 _ H). done.
Qed.

(** Rounding depends on the value of the rational only. *)
Lemma b64_round_proper (q q' : Q) : q == q' → b64_round q = b64_round q'.
Proof. intros H. unfold b64_round. by rewrite (Qred_complete q q' H). Qed.

(** [n / n] is [1.0] and [0 / n] is [0.0], exactly. *)
Lemma int_truediv_same (n : Z) : 0 < n → int_truediv n n = Return 1%Q.
Proof.
  intros Hn. unfold int_truediv.
  destruct (Z.eqb_spec n 0) as [->|Hne]; [lia|].
  cbv [mret outcome_ret].
  rewrite (b64_round_proper (inject_Z n / inject_Z n) 1); [reflexivity|].
  apply Qmult_inv_r. intros H. apply Hne.
  unfold Qeq in H. cbn in H. lia.
Qed.

Lemma int_truediv_zero (n : Z) : 0 < n → int_truediv 0 n = Return 0%Q.
Proof.
  intros Hn. unfold int_truediv.
  destruct (Z.eqb_spec n 0) as [->|Hne]; [lia|].
  cbv [mret outcome_ret].
  rewrite (b64_round_proper (inject_Z 0 / inject_Z n) 0); [reflexivity|].
  unfold Qdiv. apply Qmult_0_l.
Qed.

(** [round(1.0 * 100, 1)] is [100.0] and [round(0.0 * 100, 1)] is [0.0]. *)
Lemma score_full : float_round_1 (float_mul 1 (float_of_int 100)) = 100%Q.
Proof. vm_compute. reflexivity. Qed.
Lemma score_none : float_round_1 (float_mul 0 (float_of_int 100)) = 0%Q.
Proof. vm_compute. reflexivity. Qed.

(** A result carries at most one status: the five counts never exceed the
    length, and add up to it when every status is one of the five. *)
Lemma status_counts_le (results : list dict) :
  (length (filter (status_is PASS) results) +
   length (filter (status_is FAIL) results) +
   length (filter (status_is WARNING) results) +
   length (filter (status_is ERROR) results) +
   length (filter (status_is NOT_APPLICABLE) results) ≤ length results)%nat.
Proof.
  induction results as [|r results IH]; [done|].
  rewrite !filter_cons.
  repeat case_decide; unfold status_is in *; cbn [length]; simplify_eq; lia.
Qed.

Lemma status_counts_eq (results : list dict) :
  Forall (fun r => ∃ s, status_is s r) results →
  (length (filter (status_is PASS) results) +
   length (filter (status_is FAIL) results) +
   length (filter (status_is WARNING) results) +
   length (filter (status_is ERROR) results) +
   length (filter (status_is NOT_APPLICABLE) results) = length results)%nat.
Proof.
  induction 1 as [|r results [s Hs] _ IH]; [done|].
  rewrite !filter_cons.
  destruct s; repeat case_decide; unfold status_is in *; cbn [length];
    simplify_eq; lia.
Qed.

(** Counting by [filter]: no match, and all match. *)
Lemma filter_length_0 {A} (P : A → Prop) `{!∀ x, Decision (P x)} (l : list A) :
  length (filter P l) = 0%nat ↔ Forall (fun x => ¬ P x) l.
Proof.
  rewrite length_zero_iff_nil. induction l as [|x l IH]; [done|].
  rewrite filter_cons, Forall_cons. case_decide; [|tauto].
  split; [done|tauto].
Qed.

(** The statistics of a list of results that all carry a status. *)
Lemma calculate_stats_spec (results : list dict) :
  Forall (fun r => is_Some (r !! "status")) results →
  ∃ score,
    calculate_stats results = Return (mkdict [
      ("total", VInt (Z.of_nat (length results)));
      ("passed", VInt (Z.of_nat (length (filter (status_is PASS) results))));
      ("failed", VInt (Z.of_nat (length (filter (status_is FAIL) results))));
      ("warnings", VInt (Z.of_nat (length (filter (status_is WARNING) results))));
      ("compliance_score", score)]) ∧
    (results = [] → score = VInt 0) ∧
    (results ≠ [] →
     ∃ q, int_truediv (Z.of_nat (length (filter (status_is PASS) results)))
                      (Z.of_nat (length results)) = Return q ∧
          score = VFloat (float_round_1 (float_mul q (float_of_int 100)))).
Proof.
  intros Hall. unfold calculate_stats, count_status.
  rewrite (count_status_from_spec PASS), (count_status_from_spec FAIL),
    (count_status_from_spec WARNING) by done.
  cbv [mbind outcome_bind]. rewrite !Z.add_0_l.
  destruct results as [|r results].
  - exists (VInt 0). split; [reflexivity|]. split; [done|congruence].
  - destruct (0 <? Z.of_nat (length (r :: results))) eqn:Hpos;
      [|apply Z.ltb_ge in Hpos; cbn [length] in Hpos; lia].
    unfold int_truediv at 1.
    destruct (Z.of_nat (length (r :: results)) =? 0) eqn:Hz;
      [apply Z.eqb_eq in Hz; cbn [length] in Hz; lia|].
    cbv [mbind outcome_bind mret outcome_ret round_1].
    eexists. split; [reflexivity|]. split; [congruence|]. intros _.
    eexists. split; [|reflexivity]. unfold int_truediv. by rewrite Hz.
Qed.

(** C5. [total] is the number of results and [passed], [failed], [warnings]
    are the numbers of results with status "PASS", "FAIL", "WARNING": a
    result with status "ERROR" or "NOT_APPLICABLE" counts in [total] only.
    Hence [passed + failed + warnings <= total]; equality implies that no
    result has status "ERROR" or "NOT_APPLICABLE", and when every status is
    one of the five members the converse holds too. *)
Theorem calculate_stats_counts (results : list dict) :
  Forall (fun r => is_Some (r !! "status")) results →
  ∃ stats total passed failed warnings,
    calculate_stats results = Return stats ∧
    stats !! "total" = Some (VInt total) ∧
    stats !! "passed" = Some (VInt passed) ∧
    stats !! "failed" = Some (VInt failed) ∧
    stats !! "warnings" = Some (VInt warnings) ∧
    total = Z.of_nat (length results) ∧
    passed = Z.of_nat (length (filter (status_is PASS) results)) ∧
    failed = Z.of_nat (length (filter (status_is FAIL) results)) ∧
    warnings = Z.of_nat (length (filter (status_is WARNING) results)) ∧
    passed + failed + warnings ≤ total ∧
    (passed + failed + warnings = total →
     Forall (fun r => ¬ status_is ERROR r ∧ ¬ status_is NOT_APPLICABLE r) results) ∧
    (Forall (fun r => ∃ s, status_is s r) results →
     Forall (fun r => ¬ status_is ERROR r ∧ ¬ status_is NOT_APPLICABLE r) results →
     passed + failed + warnings = total).
Proof.
  intros Hall.
  destruct (calculate_stats_spec results Hall) as (score & Hstats & _).
  eexists _, _, _, _, _. split; [exact Hstats|].
  do 4 (split; [dict_lookup|]). do 4 (split; [reflexivity|]).
  pose proof (status_counts_le results) as Hle.
  split; [lia|]. split.
  - intros Heq.
    assert (length (filter (status_is ERROR) results) = 0%nat) as He by lia.
    assert (length (filter (status_is NOT_APPLICABLE) results) = 0%nat) as Hn by lia.
    apply filter_length_0 in He, Hn. rewrite Forall_forall in He, Hn.
    apply Forall_forall. intros r Hr. split; [by apply He|by apply Hn].
  - intros Hclosed Hnone.
    pose proof (status_counts_eq results Hclosed) as Heq.
    assert (length (filter (status_is ERROR) results) = 0%nat) as He.
    { apply filter_length_0. eapply Forall_impl; [exact Hnone|]. by intros ? []. }
    assert (length (filter (status_is NOT_APPLICABLE) results) = 0%nat) as Hn.
    { apply filter_length_0. eapply Forall_impl; [exact Hnone|]. by intros ? []. }
    lia.
Qed.

Lemma filter_length_all {A} (P : A → Prop) `{!∀ x, Decision (P x)} (l : list A) :
  Forall P l → length (filter P l) = length l.
Proof.
  induction 1 as [|x l HP _ IH]; [done|].
  rewrite filter_cons, decide_True by done. cbn. by rewrite IH.
Qed.

(** C4. [calculate_stats] returns (no division by zero), and its
    [compliance_score] is the integer [0] when there is no result; otherwise
    it is [round(passed / total * 100, 1)], computed in binary64, which is
    [100.0] when every result has status "PASS" and [0.0] when every result
    has status "FAIL". *)
Theorem calculate_stats_compliance_score (results : list dict) :
  Forall (fun r => is_Some (r !! "status")) results →
  ∃ stats, calculate_stats results = Return stats ∧
    (results = [] → stats !! "compliance_score" = Some (VInt 0)) ∧
    (results ≠ [] →
     ∃ q, int_truediv (Z.of_nat (length (filter (status_is PASS) results)))
                      (Z.of_nat (length results)) = Return q ∧
          stats !! "compliance_score" =
            Some (VFloat (float_round_1 (float_mul q (float_of_int 100))))) ∧
    (results ≠ [] → Forall (status_is PASS) results →
     stats !! "compliance_score" = Some (VFloat 100)) ∧
    (results ≠ [] → Forall (status_is FAIL) results →
     stats !! "compliance_score" = Some (VFloat 0)).
Proof.
  intros Hall.
  destruct (calculate_stats_spec results Hall) as (score & Hstats & Hnil & Hcons).
  eexists. split; [exact Hstats|].
  match goal with
  | |- context [mkdict ?entries !! _] =>
      assert (mkdict entries !! "compliance_score" = Some score) as ->
        by dict_lookup
  end.
  assert (results ≠ [] → 0 < Z.of_nat (length results)) as Hlen.
  { destruct results; [done|]. cbn [length]. lia. }
  repeat split.
  - intros Hempty. by rewrite (Hnil Hempty).
  - intros Hne. destruct (Hcons Hne) as (q & Hq & ->). eauto.
  - intros Hne Hpass. destruct (Hcons Hne) as (q & Hq & ->).
    rewrite (filter_length_all _ _ Hpass), (int_truediv_same _ (Hlen Hne)) in Hq.
    injection Hq as <-. by rewrite score_full.
  - intros Hne Hfail. destruct (Hcons Hne) as (q & Hq & ->).
    assert (length (filter (status_is PASS) results) = 0%nat) as Hzero.
    { apply filter_length_0. eapply Forall_impl; [exact Hfail|].
      unfold status_is. intros r Hf Hp. rewrite Hf in Hp. discriminate. }
    rewrite Hzero in Hq. change (Z.of_nat 0) with 0 in Hq.
    rewrite (int_truediv_zero _ (Hlen Hne)) in Hq.
    injection Hq as <-. by rewrite score_none.
Qed.

Lemma sample_results_have_status :
  Forall (fun r => is_Some (r !! "status")) sample_results.
Proof.
  unfold sample_results, sample_result.
  repeat apply Forall_cons_2; try apply Forall_nil_2;
    rewrite mkdict_lookup; eexists; reflexivity.
Qed.

(** The sample scan has one passed result of three: its score is [33.3]. *)
Lemma sample_results_passed :
  length (filter (status_is PASS) sample_results) = 1%nat.
Proof. reflexivity. Qed.

Lemma calculate_stats_compliance_score_witness :
  Forall (fun r => is_Some (r !! "status")) sample_results ∧
  ∃ stats, calculate_stats sample_results = Return stats ∧
    stats !! "compliance_score" = Some (VFloat (b64_round (333 # 10))).
Proof.
  split; [exact sample_results_have_status|].
  destruct (calculate_stats_compliance_score sample_results
              sample_results_have_status) as (stats & Hstats & _ & Hscore & _).
  exists stats. split; [exact Hstats|].
  destruct Hscore as (q & Hq & ->); [discriminate|].
  rewrite sample_results_passed in Hq.
  vm_compute in Hq. injection Hq as <-. vm_compute. reflexivity.
Defined.

Lemma calculate_stats_counts_witness :
  Forall (fun r => is_Some (r !! "status")) sample_results ∧
  ∃ stats, calculate_stats sample_results = Return stats ∧
    stats !! "total" = Some (VInt 3) ∧
    stats !! "passed" = Some (VInt 1) ∧
    stats !! "failed" = Some (VInt 1) ∧
    stats !! "warnings" = Some (VInt 0).
Proof.
  split; [exact sample_results_have_status|].
  destruct (calculate_stats_counts sample_results sample_results_have_status)
    as (stats & total & passed & failed & warnings & Hstats & Ht & Hp & Hf & Hw
        & -> & -> & -> & -> & _).
  exists stats. repeat split; assumption.
Defined.

(** ** Grouping by category *)

Section grouping.
Implicit Types (c k : string) (r : dict) (ks : list string).

(** [first_seen] keeps every element, once. *)
Lemma elem_of_first_seen c (l : list string) : c ∈ first_seen l ↔ c ∈ l.
Proof.
  induction l as [|x l IH]; [done|]. cbn [first_seen].
  rewrite !elem_of_cons, list_elem_of_filter, IH.
  destruct (decide (c = x)); naive_solver.
Qed.

Lemma NoDup_first_seen (l : list string) : NoDup (first_seen l).
Proof.
  induction l as [|x l IH]; [constructor|]. cbn [first_seen].
  apply NoDup_cons. split.
  - rewrite list_elem_of_filter. naive_solver.
  - by apply NoDup_filter.
Qed.

(** A new last element is appended if it was not seen before. *)
Lemma first_seen_snoc (l : list string) c :
  first_seen (l ++ [c]) =
  if decide (c ∈ l) then first_seen l else first_seen l ++ [c].
Proof.
  induction l as [|x l IH]; [done|]. cbn [app first_seen]. rewrite IH.
  destruct (decide (c ∈ l)) as [Hin|Hnin].
  - rewrite decide_True by (apply elem_of_cons; by right). done.
  - rewrite filter_app, filter_cons, filter_nil.
    destruct (decide (c ≠ x)) as [Hne|Heq];
      destruct (decide (c ∈ x :: l)) as [Hin|Hnin'].
    + apply elem_of_cons in Hin as [->|Hin]; done.
    + done.
    + by rewrite app_nil_r.
    + exfalso. apply Hnin'. apply elem_of_cons. left.
      by destruct (decide (c = x)).
Qed.

(** Key comparison and lookup on text keys. *)
Lemma py_eq_key_str k c : py_eq_key (VStr k) (VStr c) = bool_decide (k = c).
Proof. reflexivity. Qed.

Lemma groups_contains_str c (f : string → list dict) ks :
  groups_contains (VStr c) ((fun k => (VStr k, f k)) <$> ks) = bool_decide (c ∈ ks).
Proof.
  induction ks as [|k ks IH]; [done|]. cbn [fmap list_fmap groups_contains].
  rewrite py_eq_key_str, IH.
  destruct (decide (k = c)) as [->|Hne].
  - rewrite bool_decide_eq_true_2 by done. symmetry.
    apply bool_decide_eq_true_2. apply elem_of_cons. by left.
  - rewrite (bool_decide_eq_false_2 (k = c)) by done. cbn.
    apply bool_decide_ext. rewrite elem_of_cons. naive_solver.
Qed.

(** Appending to the list of a key present once changes that list only. *)
Lemma groups_append_str c r (f : string → list dict) ks :
  NoDup ks → c ∈ ks →
  groups_append (VStr c) r ((fun k => (VStr k, f k)) <$> ks) =
  Return ((fun k => (VStr k, if decide (k = c) then f k ++ [r] else f k)) <$> ks).
Proof.
  induction ks as [|k ks IH]; intros Hnd Hin; [by apply elem_of_nil in Hin|].
  apply NoDup_cons in Hnd as [Hk Hnd].
  cbn [fmap list_fmap groups_append]. rewrite py_eq_key_str.
  destruct (decide (k = c)) as [->|Hne].
  - rewrite bool_decide_eq_true_2 by done. cbv [mret outcome_ret].
    do 2 f_equal. apply list_fmap_ext. intros i k Hik.
    rewrite decide_False; [done|]. intros ->.
    apply Hk. by eapply list_elem_of_lookup_2.
  - rewrite bool_decide_eq_false_2 by done.
    apply elem_of_cons in Hin as [->|Hin]; [done|].
    cbn [fmap list_fmap] in IH. rewrite (IH Hnd Hin). reflexivity.
Qed.

(** A category that no result carries has an empty group. *)
Lemma filter_category_absent c (l : list dict) :
  c ∉ omap category_of l → filter (category_is c) l = [].
Proof.
  intros Hnin. induction l as [|r l IH]; [done|].
  rewrite filter_cons. cbn [omap list_omap] in Hnin.
  destruct (decide (category_is c r)) as [Hc|Hc].
  - exfalso. apply Hnin. unfold category_is in Hc. unfold category_of.
    rewrite Hc. apply elem_of_cons. by left.
  - apply IH. intros Hin. apply Hnin.
    destruct (category_of r); [apply elem_of_cons; by right|done].
Qed.

(** A result carries one category. *)
Lemma category_of_is c r : category_is c r → category_of r = Some c.
Proof. unfold category_is, category_of. by intros ->. Qed.

Lemma category_is_unique c k r : category_is c r → category_is k r ↔ k = c.
Proof. unfold category_is. intros ->. split; congruence. Qed.

(** One turn of the loop takes the grouping of the results seen so far to
    the grouping of those and the next one. *)
Lemma group_step c r (done : list dict) :
  category_is c r →
  groups_append (VStr c) r
    (if groups_contains (VStr c) (group_by_category_spec done)
     then group_by_category_spec done
     else group_by_category_spec done ++ [(VStr c, [])]) =
  Return (group_by_category_spec (done ++ [r])).
Proof.
  intros Hc. unfold group_by_category_spec.
  rewrite groups_contains_str, omap_app. cbn [omap list_omap].
  rewrite (category_of_is c r Hc), first_seen_snoc.
  assert (∀ ks',
    NoDup ks' → c ∈ ks' →
    groups_append (VStr c) r
      ((fun k => (VStr k, filter (category_is k) done)) <$> ks') =
    Return ((fun k => (VStr k, filter (category_is k) (done ++ [r]))) <$> ks'))
    as Happend.
  { intros ks' Hnd Hin. rewrite groups_append_str by done.
    cbv [mret outcome_ret]. f_equal. apply list_fmap_ext. intros _ k _.
    cbn beta. f_equal.
    rewrite filter_app, filter_cons, filter_nil.
    destruct (decide (k = c)) as [->|Hne].
    - by rewrite decide_True.
    - rewrite decide_False; [by rewrite app_nil_r|].
      by rewrite (category_is_unique c k r Hc). }
  destruct (decide (c ∈ omap category_of done)) as [Hin|Hnin].
  - rewrite bool_decide_eq_true_2 by (by apply elem_of_first_seen).
    apply Happend; [apply NoDup_first_seen|by apply elem_of_first_seen].
  - rewrite bool_decide_eq_false_2 by (by rewrite elem_of_first_seen).
    assert (((fun k => (VStr k, filter (category_is k) done)) <$>
               first_seen (omap category_of done)) ++ [(VStr c, [])] =
            (fun k => (VStr k, filter (category_is k) done)) <$>
               (first_seen (omap category_of done) ++ [c])) as ->.
    { rewrite fmap_app. cbn [fmap list_fmap].
      by rewrite (filter_category_absent c done Hnin). }
    apply Happend.
    + apply NoDup_app. split; [apply NoDup_first_seen|].
      split; [|apply NoDup_singleton].
      intros x Hx ->%list_elem_of_singleton. apply Hnin.
      by apply elem_of_first_seen.
    + apply elem_of_app. right. by apply list_elem_of_singleton.
Qed.

(** The loop, from the grouping of the results already seen. *)
Lemma group_by_category_from_spec (rest done : list dict) :
  Forall (fun r => ∃ c, category_is c r) rest →
  group_by_category_from rest (group_by_category_spec done) =
  Return (group_by_category_spec (done ++ rest)).
Proof.
  intros Hall. revert done.
  induction Hall as [|r rest [c Hc] _ IH]; intros done.
  - by rewrite app_nil_r.
  - cbn [group_by_category_from]. unfold py_getitem.
    rewrite Hc. cbv [mbind outcome_bind py_hash mret outcome_ret].
    rewrite (group_step c r done Hc), IH, <- app_assoc. reflexivity.
Qed.

(** Adding one element to the list of exactly one key adds it to the
    concatenation. *)
Lemma concat_insert_one {A} (x : A) c (f : string → list A) ks :
  NoDup ks → c ∈ ks →
  concat ((fun k => if decide (k = c) then x :: f k else f k) <$> ks) ≡ₚ
  x :: concat (f <$> ks).
Proof.
  induction ks as [|k ks IH]; intros Hnd Hin; [by apply elem_of_nil in Hin|].
  apply NoDup_cons in Hnd as [Hk Hnd]. cbn [fmap list_fmap concat].
  destruct (decide (k = c)) as [->|Hne].
  - cbn. do 2 f_equiv.
    assert ((fun k => if decide (k = c) then x :: f k else f k) <$> ks = f <$> ks)
      as ->; [|done].
    apply list_fmap_ext. intros i k Hik. rewrite decide_False; [done|].
    intros ->. apply Hk. by eapply list_elem_of_lookup_2.
  - apply elem_of_cons in Hin as [->|Hin]; [done|].
    rewrite (IH Hnd Hin). by rewrite Permutation_middle.
Qed.

(** The groups of [ks] hold every result whose category is in [ks], once. *)
Lemma concat_groups_perm (results : list dict) ks :
  NoDup ks →
  Forall (fun r => ∃ c, category_is c r ∧ c ∈ ks) results →
  concat ((fun k => filter (category_is k) results) <$> ks) ≡ₚ results.
Proof.
  intros Hnd. induction 1 as [|r results (c & Hc & Hin) _ IH].
  - induction ks as [|k ks IHks]; [done|].
    apply NoDup_cons in Hnd as [_ Hnd]. cbn. by apply IHks.
  - assert ((fun k => filter (category_is k) (r :: results)) <$> ks =
            (fun k => if decide (k = c) then r :: filter (category_is k) results
                      else filter (category_is k) results) <$> ks) as ->.
    { apply list_fmap_ext. intros _ k _. cbn beta. rewrite filter_cons.
      destruct (decide (k = c)) as [->|Hne].
      - by rewrite decide_True.
      - rewrite decide_False; [done|]. by rewrite (category_is_unique c k r Hc). }
    rewrite (concat_insert_one r c _ ks Hnd Hin). by rewrite IH.
Qed.
End grouping.


(** C8. Grouping results that each carry a text category returns the
    grouping of the specification: (a) the concatenation of the groups, in
    group order, is a permutation of the results; (b) every result of a group
    carries the key of the group as category; (c) the keys are the
    categories in first-seen order, without repetition, and each group is
    the sublist of the results of its category, in their original order. *)
Theorem group_by_category_partitions (results : list dict) :
  Forall (fun r => ∃ c, category_is c r) results →
  ∃ gs, group_by_category results = Return gs ∧
    concat gs.*2 ≡ₚ results ∧
    Forall (fun g => Forall (fun r => r !! "category" = Some g.1) g.2) gs ∧
    gs.*1 = VStr <$> first_seen (omap category_of results) ∧
    NoDup gs.*1 ∧
    Forall (fun g => ∃ c, g.1 = VStr c ∧ g.2 = filter (category_is c) results) gs.
Proof.
  intros Hall. exists (group_by_category_spec results).
  split; [exact (group_by_category_from_spec results [] Hall)|].
  unfold group_by_category_spec.
  set (ks := first_seen (omap category_of results)).
  repeat split.
  - rewrite <- list_fmap_compose.
    apply (concat_groups_perm results ks); [apply NoDup_first_seen|].
    apply Forall_forall. intros r Hr. rewrite Forall_forall in Hall.
    destruct (Hall r Hr) as [c Hc]. exists c. split; [done|].
    apply elem_of_first_seen, list_elem_of_omap. exists r.
    split; [done|by apply category_of_is].
  - apply Forall_fmap, Forall_forall. intros c _. cbn.
    apply Forall_forall. intros r Hr. by apply list_elem_of_filter in Hr as [Hr _].
  - by rewrite <- list_fmap_compose.
  - rewrite <- list_fmap_compose.
    apply NoDup_fmap_2; [intros c c' [=]; done|apply NoDup_first_seen].
  - apply Forall_fmap, Forall_forall. intros c _. by exists c.
Qed.

(** The sample scan groups into two categories. *)
Lemma sample_results_have_category :
  Forall (fun r => ∃ c, category_is c r) sample_results.
Proof.
  unfold sample_results, sample_result, category_is.
  repeat apply Forall_cons_2; try apply Forall_nil_2;
    eexists; rewrite mkdict_lookup; reflexivity.
Qed.

Lemma group_by_category_partitions_witness :
  Forall (fun r => ∃ c, category_is c r) sample_results ∧
  ∃ gs, group_by_category sample_results = Return gs ∧
    concat gs.*2 ≡ₚ sample_results ∧
    gs.*1 = [VStr "Network Security"; VStr "System Updates"].
Proof.
  split; [exact sample_results_have_category|].
  destruct (group_by_category_partitions sample_results sample_results_have_category)
    as (gs & Hrun & Hperm & _ & Hkeys & _).
  exists gs. repeat split; assumption.
Defined.

(** ** The boundary of the wrapper *)

(** An exception outside [Exception] (an interrupt, an exit request) raised
    by [check()] is not intercepted: [run] raises it. *)
Lemma run_propagates_outside_exception (self : BaseCheck.t) (now : string)
    (e : exception) :
  BaseCheck.check self = Raise e →
  isinstance e Exception = false →
  BaseCheck.run self now = Raise e.
Proof.
  intros He Hexc. rewrite (run_on_raise self now e), Hexc; [done|].
  unfold BaseCheck.run_try. by rewrite He.
Qed.

Lemma run_propagates_outside_exception_witness :
  BaseCheck.run
    (bare_probe (Raise (mk_exception KeyboardInterrupt ""))) now0 =
  Raise (mk_exception KeyboardInterrupt "").
Proof.
  exact (run_propagates_outside_exception
           (bare_probe (Raise (mk_exception KeyboardInterrupt ""))) now0
           (mk_exception KeyboardInterrupt "") eq_refl eq_refl).
Defined.

(** ** A whole scan *)

(** The scenario of the specification: three probes, of which one passes,
    one fails with a risk text and one raises.  The scan yields three
    results, the statistics are [total = 3], [passed = 1], [failed = 1],
    [warnings = 0] and a score of [33.3], and the third result has status
    "ERROR" with the text of the exception as [error]. *)
Theorem three_probe_scan (clock : nat → string) :
  ∃ r1 r2 r3 stats,
    run_all_checks [terse_probe; failing_probe; faulting_probe] clock =
      Return [r1; r2; r3] ∧
    calculate_stats [r1; r2; r3] = Return stats ∧
    stats !! "total" = Some (VInt 3) ∧
    stats !! "passed" = Some (VInt 1) ∧
    stats !! "failed" = Some (VInt 1) ∧
    stats !! "warnings" = Some (VInt 0) ∧
    stats !! "compliance_score" = Some (VFloat (b64_round (333 # 10))) ∧
    r2 !! "risk" = Some (VStr "exposed") ∧
    r3 !! "status" = Some (VStr "ERROR") ∧
    r3 !! "error" = Some (VStr "boom").
Proof.
  destruct (run_try_completes terse_probe (clock 0%nat) _ "PASS" eq_refl eq_refl)
    as (r1 & _ & Hrun1 & _ & _ & _ & _ & _ & _ & _ & Hs1 & _).
  destruct (run_try_completes failing_probe (clock 1%nat) _ "FAIL" eq_refl eq_refl)
    as (r2 & _ & Hrun2 & _ & _ & _ & _ & _ & _ & _ & Hs2 & _ & _ & Hrisk2 & _).
  assert (raises_exception faulting_probe (mk_exception RuntimeError "boom")) as Hf.
  { split; reflexivity. }
  destruct (run_except_fields faulting_probe (clock 2%nat)
              (mk_exception RuntimeError "boom"))
    as (r3 & Hrun3 & _ & _ & _ & _ & _ & _ & _ & Hs3 & _ & _ & _ & _ & _ & He3).
  rewrite <- (run_on_exception _ _ _ Hf) in Hrun3.
  assert (Forall (fun r => is_Some (r !! "status")) [r1; r2; r3]) as Hall.
  { repeat apply Forall_cons_2; try apply Forall_nil_2; eauto. }
  assert (status_is PASS r1 ∧ ¬ status_is FAIL r1 ∧ ¬ status_is WARNING r1 ∧
          ¬ status_is PASS r2 ∧ status_is FAIL r2 ∧ ¬ status_is WARNING r2 ∧
          ¬ status_is PASS r3 ∧ ¬ status_is FAIL r3 ∧ ¬ status_is WARNING r3)
    as (? & ? & ? & ? & ? & ? & ? & ? & ?).
  { unfold status_is. rewrite Hs1, Hs2, Hs3. repeat split; done. }
  assert (length (filter (status_is PASS) [r1; r2; r3]) = 1%nat ∧
          length (filter (status_is FAIL) [r1; r2; r3]) = 1%nat ∧
          length (filter (status_is WARNING) [r1; r2; r3]) = 0%nat)
    as (Hp & Hfl & Hw).
  { repeat first [rewrite filter_cons_True by assumption
                 |rewrite filter_cons_False by assumption].
    done. }
  destruct (calculate_stats_spec [r1; r2; r3] Hall) as (score & Hstats & _ & Hscore).
  destruct Hscore as (q & Hq & ->); [done|].
  rewrite Hp, Hfl, Hw in Hstats. rewrite Hp in Hq.
  vm_compute in Hq. injection Hq as <-.
  eexists r1, r2, r3, _. split.
  { unfold run_all_checks. cbn [run_all_checks_from].
    rewrite Hrun1. cbv [mbind outcome_bind]. rewrite Hrun2, Hrun3. reflexivity. }
  split; [exact Hstats|].
  do 4 (split; [dict_lookup|]).
  split; [rewrite mkdict_lookup; vm_compute; reflexivity|].
  rewrite Hrisk2. split; [dict_lookup|]. done.
Qed.

(** ** The model on concrete inputs *)

(** [0.1], [33.3] and [2.675] as binary64 values, and the rounding of the
    last one: [round(2.675, 1)] is [2.7], [round(0.25, 1)] is [0.2]. *)
Example b64_round_tenth :
  b64_round (1 # 10) = (3602879701896397 # 36028797018963968)%Q.
Proof. vm_compute. reflexivity. Qed.

Example round_1_ties :
  float_round_1 (b64_round (2675 # 1000)) = b64_round (27 # 10) ∧
  float_round_1 (b64_round (25 # 100)) = b64_round (2 # 10) ∧
  round_1 (VInt 0) = Return (VInt 0).
Proof. repeat split; vm_compute; reflexivity. Qed.

(** [1 / 3 * 100] rounds to [33.3] and [2 / 3 * 100] to [66.7]. *)
Example score_of_thirds :
  (q ← int_truediv 1 3; round_1 (VFloat (float_mul q (float_of_int 100)))) =
    Return (VFloat (b64_round (333 # 10))) ∧
  (q ← int_truediv 2 3; round_1 (VFloat (float_mul q (float_of_int 100)))) =
    Return (VFloat (b64_round (667 # 10))).
Proof. split; vm_compute; reflexivity. Qed.

(** Text operations. *)
Example strip_lower_sample :
  PyStr.lower (PyStr.strip "  Firewall is ENABLED. (State = 1) ") =
  "firewall is enabled. (state = 1)".
Proof. reflexivity. Qed.

Example split_sample :
  PyStr.split ","%char "a,b," = ["a"; "b"; ""] ∧ PyStr.split ","%char "" = [""].
Proof. split; reflexivity. Qed.

Example parse_updates_sample :
  _parse_updates
    (String "010"%char
       ("* Label: macOS 14.5" +:+ String "010"%char
          ("   Title: macOS 14.5, Recommended: YES" +:+ String "010"%char
             ("* Safari17.5" +:+ String "010"%char "*  ")))) =
  ["macOS 14.5"; "Safari17.5"].
Proof. reflexivity. Qed.

(** The class test of the handlers. *)
Example isinstance_samples :
  isinstance (mk_exception TimeoutExpired "") Exception = true ∧
  isinstance (mk_exception PermissionError "") OSError = true ∧
  isinstance (mk_exception FileNotFoundError "") PermissionError = false ∧
  isinstance (mk_exception KeyboardInterrupt "") Exception = false.
Proof. repeat split; reflexivity. Qed.

(** A return value that is no dictionary, or whose status is a text, takes
    the fault path of [run]. *)
Example run_on_bad_return :
  (∃ d, BaseCheck.run (bare_probe (Return VNone)) now0 = Return d ∧
     d !! "status" = Some (VStr "ERROR") ∧
     d !! "error" = Some (VStr "'NoneType' object has no attribute 'get'")) ∧
  (∃ d, BaseCheck.run
          (bare_probe (Return (VDict (mkdict [("status", VStr "PASS")])))) now0
        = Return d ∧
     d !! "status" = Some (VStr "ERROR") ∧
     d !! "error" = Some (VStr "'str' object has no attribute 'value'")).
Proof.
  split.
  - rewrite (run_on_raise _ now0 (no_attribute VNone "get")) by reflexivity.
    destruct (run_except_fields (bare_probe (Return VNone)) now0
                (no_attribute VNone "get"))
      as (d & Hrun & _ & _ & _ & _ & _ & _ & _ & Hs & _ & _ & _ & _ & _ & He).
    exists d. done.
  - rewrite (run_on_raise _ now0 (no_attribute (VStr "PASS") "value")) by reflexivity.
    destruct (run_except_fields
                (bare_probe (Return (VDict (mkdict [("status", VStr "PASS")])))) now0
                (no_attribute (VStr "PASS") "value"))
      as (d & Hrun & _ & _ & _ & _ & _ & _ & _ & Hs & _ & _ & _ & _ & _ & He).
    exists d. done.
Qed.

(** The scenario of the specification with no probe: no result, [total = 0],
    the integer score [0], no group. *)
Theorem empty_scan (clock : nat → string) :
  run_all_checks [] clock = Return [] ∧
  group_by_category [] = Return [] ∧
  ∃ stats, calculate_stats [] = Return stats ∧
    stats !! "total" = Some (VInt 0) ∧
    stats !! "passed" = Some (VInt 0) ∧
    stats !! "failed" = Some (VInt 0) ∧
    stats !! "warnings" = Some (VInt 0) ∧
    stats !! "compliance_score" = Some (VInt 0).
Proof.
  repeat split. eexists. split; [reflexivity|]. repeat split; dict_lookup.
Qed.

(** Fault isolation, as it holds: within the contract [run] does not raise
    and returns one dictionary, with at least the twelve keys that both
    paths write. *)
Theorem run_isolates_faults (self : BaseCheck.t) (now : string) :
  in_contract self →
  ∃ d, BaseCheck.run self now = Return d ∧
    list_to_set result_keys ∖ {["compliance_frameworks"]} ⊆ dom d.
Proof. apply run_never_raises. Qed.

Lemma run_isolates_faults_witness :
  in_contract faulting_probe ∧
  ∃ d, BaseCheck.run faulting_probe now0 = Return d ∧
    list_to_set result_keys ∖ {["compliance_frameworks"]} ⊆ dom d.
Proof.
  assert (in_contract faulting_probe) as H.
  { right. eexists. split; reflexivity. }
  split; [exact H|]. exact (run_isolates_faults faulting_probe now0 H).
Defined.

(** The shipped network probes never report [PASS] with an empty risk. *)
Theorem shipped_pass_risk (env : environment) (now : string) (d : dict) :
  (BaseCheck.run (FirewallCheck env) now = Return d →
   d !! "status" = Some (VStr "PASS") →
   d !! "risk" = Some (VStr "None")) ∧
  (BaseCheck.run (SSHConfigCheck env) now = Return d →
   d !! "status" = Some (VStr "PASS") →
   d !! "risk" = Some (VStr "None") ∨
   d !! "risk" = Some (VStr "Low - SSH is configured with security best practices")).
Proof.
  split; intros Hrun Hpass.
  - destruct (run_inv _ now d Hrun)
      as [(o & t & Hcheck & Ht & Hs & Hr & _)|(e & _ & _ & _ & Hs & _)];
      [|congruence].
    rewrite Hr, (FirewallCheck_pass_risk env o Hcheck); [done|].
    apply status_text_PASS. congruence.
  - destruct (run_inv _ now d Hrun)
      as [(o & t & Hcheck & Ht & Hs & Hr & _)|(e & _ & _ & _ & Hs & _)];
      [|congruence].
    rewrite Hr.
    destruct (SSHConfigCheck_pass_risk env o Hcheck) as [->| ->]; eauto.
    apply status_text_PASS. congruence.
Qed.

Lemma shipped_pass_risk_witness :
  ∃ d, BaseCheck.run (FirewallCheck env_firewall_on) now0 = Return d ∧
    d !! "status" = Some (VStr "PASS") ∧
    d !! "risk" = Some (VStr "None").
Proof.
  destruct FirewallCheck_on_outcome as (o & Hcheck & Ht & _).
  destruct (run_try_completes _ now0 o _ Hcheck Ht)
    as (d & _ & Hrun & _ & _ & _ & _ & _ & _ & _ & Hs & _).
  exists d. split; [exact Hrun|]. split; [exact Hs|].
  exact (proj1 (shipped_pass_risk env_firewall_on now0 d) Hrun Hs).
Defined.

(* ===================================================================== *)
(** * Properties of the rest of the code *)
(* ===================================================================== *)

(** ** The shipped probes report their own faults *)

Lemma reported_outcome_intro (s : CheckStatus) (f : string) (ev : dict) (r : string) :
  s ≠ NOT_APPLICABLE → r ≠ "" →
  reported_outcome (mkdict [("status", VStatus s); ("finding", VStr f);
                            ("evidence", VDict ev); ("risk", VStr r)]).
Proof.
  intros Hs Hr. split; [rewrite dom_mkdict; set_solver|].
  split; [exists s; split; [dict_lookup|done]|].
  split; [eexists; dict_lookup|].
  split; [eexists; dict_lookup|].
  exists r. split; [dict_lookup|done].
Qed.

Ltac reported := eexists; split; [reflexivity|apply reported_outcome_intro; done].

Lemma isinstance_Exception_mro (e : exception) (c : exc_class) :
  isinstance e Exception = true → isinstance e c = true ∨ isinstance e c = false.
Proof. destruct (isinstance e c); eauto. Qed.

Lemma FirewallCheck_reports (env : environment) :
  env_contained env →
  ∃ o, FirewallCheck_check env = Return (VDict o) ∧ reported_outcome o.
Proof.
  intros [Hrun _]. unfold FirewallCheck_check.
  pose proof (Hrun [socketfilterfw; "--getglobalstate"]) as H1.
  pose proof (Hrun [socketfilterfw; "--getstealthmode"]) as H2.
  destruct (subprocess_run env [socketfilterfw; "--getglobalstate"]) as [r|e];
    probe_step.
  - destruct (PyStr.contains _ _); [|reported].
    destruct (subprocess_run env [socketfilterfw; "--getstealthmode"]) as [r'|e'];
      [reported|].
    rewrite (H2 e' eq_refl). reported.
  - rewrite (H1 e eq_refl). reported.
Qed.

Lemma FileVaultCheck_reports (env : environment) :
  env_contained env →
  ∃ o, FileVaultCheck_check env = Return (VDict o) ∧ reported_outcome o.
Proof.
  intros [Hrun _]. unfold FileVaultCheck_check.
  pose proof (Hrun ["fdesetup"; "status"]) as H1.
  destruct (subprocess_run env ["fdesetup"; "status"]) as [r|e]; probe_step.
  - repeat (destruct (PyStr.contains _ _); [reported|]). reported.
  - rewrite (H1 e eq_refl). reported.
Qed.

Lemma SoftwareUpdatesCheck_reports (env : environment) :
  env_contained env →
  ∃ o, SoftwareUpdatesCheck_check env = Return (VDict o) ∧ reported_outcome o.
Proof.
  intros [Hrun _]. unfold SoftwareUpdatesCheck_check.
  pose proof (Hrun ["softwareupdate"; "-l"]) as H1.
  destruct (subprocess_run env ["softwareupdate"; "-l"]) as [r|e]; probe_step.
  - destruct (_ || _); reported.
  - destruct (isinstance e TimeoutExpired); [reported|].
    rewrite (H1 e eq_refl). reported.
Qed.

Lemma SSHConfigCheck_reports (env : environment) :
  env_contained env →
  ∃ o, SSHConfigCheck_check env = Return (VDict o) ∧ reported_outcome o.
Proof.
  intros [Hrun Hread]. unfold SSHConfigCheck_check.
  pose proof (Hrun ["sudo"; "systemsetup"; "-getremotelogin"]) as H1.
  pose proof (Hread "/etc/ssh/sshd_config") as H2.
  destruct (subprocess_run env ["sudo"; "systemsetup"; "-getremotelogin"]) as [r|e];
    probe_step.
  - destruct (negb _); [reported|].
    destruct (os_path_exists env _); [|reported].
    destruct (open_read env _) as [c|e]; probe_step.
    + destruct (bool_decide _); reported.
    + destruct (isinstance e PermissionError); [reported|].
      rewrite (H2 e eq_refl). reported.
  - destruct (isinstance e PermissionError); [reported|].
    rewrite (H1 e eq_refl). reported.
Qed.

(** [int] raises nothing but [ValueError]. *)
Lemma PyNum_int_raises (max_digits : nat) (s : string) (e : exception) :
  PyNum.int max_digits s = Raise e → exc_type e = ValueError.
Proof.
  unfold PyNum.int. destruct (PyNum.parse_literal _) as [[v count]|];
    [destruct (_ && _)|]; intros [= <-]; done.
Qed.

(** A division by a non-zero integer raises at most the overflow error. *)
Lemma PyNum_truediv_raises (a b : Z) (e : exception) :
  b ≠ 0 → PyNum.truediv a b = Raise e → exc_type e = Exception.
Proof.
  intros Hb. unfold PyNum.truediv.
  destruct (b =? 0) eqn:Hz; [apply Z.eqb_eq in Hz; done|].
  destruct (Qle_bool _ _); intros [= <-]; done.
Qed.

Lemma ScreenLockCheck_reports (max_digits : nat) (env : environment) :
  env_contained env →
  ∃ o, ScreenLockCheck_check max_digits env = Return (VDict o) ∧ reported_outcome o.
Proof.
  intros [Hrun _]. unfold ScreenLockCheck_check.
  pose proof (Hrun ["defaults"; "read"; "com.apple.screensaver"; "idleTime"]) as H1.
  destruct (subprocess_run env _) as [r|e]; probe_step.
  - destruct (returncode r =? 0); [|reported].
    destruct (PyNum.int max_digits _) as [n|e] eqn:Hint.
    + destruct (PyNum.truediv n 60) as [m|e] eqn:Hdiv.
      * destruct (_ && _); [reported|]. destruct (1200 <? n); reported.
      * apply PyNum_truediv_raises in Hdiv; [|done].
        unfold isinstance. rewrite Hdiv. reported.
    + apply PyNum_int_raises in Hint. unfold isinstance. rewrite Hint. reported.
  - destruct (isinstance e ValueError); [reported|].
    rewrite (H1 e eq_refl). reported.
Qed.

(** What [run] makes of a reported outcome: a complete result that copies
    the four dynamic fields and takes the remediation from the probe. *)
Lemma run_of_reported (self : BaseCheck.t) (now : string) (o : dict) :
  BaseCheck.check self = Return (VDict o) →
  reported_outcome o →
  ∃ d s, BaseCheck.run self now = Return d ∧
    dom d = list_to_set result_keys ∧
    o !! "status" = Some (VStatus s) ∧ s ≠ NOT_APPLICABLE ∧
    d !! "status" = Some (VStr (CheckStatus_value s)) ∧
    d !! "id" = Some (VStr (BaseCheck.id self)) ∧
    d !! "category" = Some (VStr (BaseCheck.category self)) ∧
    d !! "finding" = o !! "finding" ∧
    d !! "evidence" = o !! "evidence" ∧
    d !! "risk" = o !! "risk" ∧
    d !! "remediation" = Some (VStr (BaseCheck.remediation self)) ∧
    d !! "error" = Some VNone.
Proof.
  intros Hcheck (Hdom & (s & Hs & Hna) & (f & Hf) & (ev & Hev) & (r & Hr & _)).
  assert (o !! "remediation" = None) as Hrem.
  { apply not_elem_of_dom. rewrite Hdom. set_solver. }
  assert (status_text o = Some (CheckStatus_value s)) as Ht.
  { unfold status_text. by rewrite Hs. }
  destruct (run_try_completes self now o _ Hcheck Ht)
    as (d & _ & Hrun & Hd & Hid & _ & _ & Hcat & _ & _ & Hst & Hfi & Hevi & Hri
        & Hre & _ & Herr).
  exists d, s. rewrite Hf in Hfi. rewrite Hev in Hevi. rewrite Hr in Hri.
  rewrite Hrem in Hre. rewrite Hf, Hev, Hr. repeat split; assumption.
Qed.

Lemma shipped_checks_reported (max_digits : nat) (env : environment) :
  env_contained env →
  Forall (fun self => ∃ o, BaseCheck.check self = Return (VDict o) ∧
                          reported_outcome o)
         (shipped_checks max_digits env).
Proof.
  intros Henv. unfold shipped_checks.
  repeat apply Forall_cons_2; [| | | | |apply Forall_nil_2]; cbn [BaseCheck.check].
  - by apply SoftwareUpdatesCheck_reports.
  - by apply FirewallCheck_reports.
  - by apply FileVaultCheck_reports.
  - by apply ScreenLockCheck_reports.
  - by apply SSHConfigCheck_reports.
Qed.

Lemma complete_result_dom (d : dict) :
  dom d = list_to_set result_keys → complete_result d.
Proof.
  intros Hdom. unfold complete_result. apply Forall_forall. intros k Hk.
  apply elem_of_dom. rewrite Hdom. by apply elem_of_list_to_set.
Qed.

Lemma status_reported (s : CheckStatus) :
  s ≠ NOT_APPLICABLE → s ∈ [PASS; FAIL; WARNING; ERROR].
Proof. intros Hs. destruct s; [set_solver..|done]. Qed.

(** The shipped probes handle their own faults.  When no call into the
    system is interrupted, [check()] of each of the five probes returns, and
    what it returns is a dictionary of exactly the four fields [status],
    [finding], [evidence] and [risk]: the status is one of [PASS], [FAIL],
    [WARNING], [ERROR], the finding and the risk are texts, the risk not
    empty, and the evidence is a dictionary. *)
Theorem shipped_checks_catch_their_faults (max_digits : nat) (env : environment)
    (self : BaseCheck.t) :
  env_contained env →
  self ∈ shipped_checks max_digits env →
  ∃ o s finding evidence risk,
    BaseCheck.check self = Return (VDict o) ∧
    dom o = list_to_set ["status"; "finding"; "evidence"; "risk"] ∧
    o !! "status" = Some (VStatus s) ∧ s ∈ [PASS; FAIL; WARNING; ERROR] ∧
    o !! "finding" = Some (VStr finding) ∧
    o !! "evidence" = Some (VDict evidence) ∧
    o !! "risk" = Some (VStr risk) ∧ risk ≠ "".
Proof.
  intros Henv Hin.
  pose proof (shipped_checks_reported max_digits env Henv) as Hall.
  rewrite Forall_forall in Hall.
  destruct (Hall self Hin)
    as (o & Hcheck & Hdom & (s & Hs & Hna) & (f & Hf) & (ev & Hev) & (r & Hr & Hne)).
  exists o, s, f, ev, r. repeat split; try assumption.
  by apply status_reported.
Qed.

Lemma env_firewall_on_contained : env_contained env_firewall_on.
Proof. split; intros x e; discriminate. Qed.

Lemma shipped_checks_catch_their_faults_witness :
  env_contained env_firewall_on ∧
  FirewallCheck env_firewall_on ∈ shipped_checks 4300 env_firewall_on ∧
  ∃ o s finding evidence risk,
    BaseCheck.check (FirewallCheck env_firewall_on) = Return (VDict o) ∧
    dom o = list_to_set ["status"; "finding"; "evidence"; "risk"] ∧
    o !! "status" = Some (VStatus s) ∧ s ∈ [PASS; FAIL; WARNING; ERROR] ∧
    o !! "finding" = Some (VStr finding) ∧
    o !! "evidence" = Some (VDict evidence) ∧
    o !! "risk" = Some (VStr risk) ∧ risk ≠ "".
Proof.
  assert (FirewallCheck env_firewall_on ∈ shipped_checks 4300 env_firewall_on) as Hin.
  { unfold shipped_checks. apply elem_of_cons. right. apply elem_of_cons. by left. }
  split; [exact env_firewall_on_contained|]. split; [exact Hin|].
  exact (shipped_checks_catch_their_faults 4300 env_firewall_on _
           env_firewall_on_contained Hin).
Defined.

(** Hence the fault path of [run] is never taken for a shipped probe: its
    result is complete (all thirteen keys), [error] is [None], the status is
    one of "PASS", "FAIL", "WARNING", "ERROR", the risk is a text that is not
    empty and the remediation is the static text of the probe. *)
Theorem shipped_results_complete (max_digits : nat) (env : environment)
    (self : BaseCheck.t) (now : string) :
  env_contained env →
  self ∈ shipped_checks max_digits env →
  ∃ d s risk,
    BaseCheck.run self now = Return d ∧
    complete_result d ∧
    d !! "status" = Some (VStr (CheckStatus_value s)) ∧
    s ∈ [PASS; FAIL; WARNING; ERROR] ∧
    d !! "error" = Some VNone ∧
    d !! "risk" = Some (VStr risk) ∧ risk ≠ "" ∧
    d !! "remediation" = Some (VStr (BaseCheck.remediation self)) ∧
    d !! "timestamp" = Some (VStr now).
Proof.
  intros Henv Hin.
  pose proof (shipped_checks_reported max_digits env Henv) as Hall.
  rewrite Forall_forall in Hall.
  destruct (Hall self Hin) as (o & Hcheck & Hrep).
  destruct (run_of_reported self now o Hcheck Hrep)
    as (d & s & Hrun & Hdom & Hs & Hna & Hst & _ & _ & _ & _ & Hri & Hre & Herr).
  destruct Hrep as (_ & _ & _ & _ & (r & Hr & Hne)).
  exists d, s, r. rewrite Hri, Hr.
  assert (d !! "timestamp" = Some (VStr now)) as Hts.
  { assert (status_text o = Some (CheckStatus_value s)) as Ht.
    { unfold status_text. by rewrite Hs. }
    destruct (run_try_completes self now o _ Hcheck Ht)
      as (d' & _ & Hrun' & _ & _ & _ & _ & _ & _ & _ & _ & _ & _ & _ & _ & Hts & _).
    congruence. }
  repeat split; try assumption.
  - by apply complete_result_dom.
  - by apply status_reported.
Qed.

(** ** From the scan to the dashboard *)

(** Whatever [run] returns carries the identity of its probe, a status text
    and the twelve keys that both paths write. *)
Lemma run_result_fields (self : BaseCheck.t) (now : string) (d : dict) :
  BaseCheck.run self now = Return d →
  list_to_set result_keys ∖ {["compliance_frameworks"]} ⊆ dom d ∧
  d !! "id" = Some (VStr (BaseCheck.id self)) ∧
  d !! "title" = Some (VStr (BaseCheck.title self)) ∧
  d !! "category" = Some (VStr (BaseCheck.category self)) ∧
  d !! "severity" = Some (VStr (Severity_value (BaseCheck.severity self))) ∧
  (∃ t, d !! "status" = Some (VStr t)) ∧
  is_Some (d !! "finding") ∧
  is_Some (d !! "risk").
Proof.
  intros Hrun.
  destruct (run_try_cases self now) as [(o & t & Hcheck & Ht)|(e & Htry & He)].
  - destruct (run_try_completes self now o t Hcheck Ht)
      as (d' & _ & Hrun' & Hdom & Hid & Hti & _ & Hcat & Hsev & _ & Hs & Hf & _
          & Hr & _).
    assert (d' = d) as -> by congruence.
    split; [rewrite Hdom; set_solver|]. eauto 10.
  - rewrite (run_on_raise self now e Htry) in Hrun.
    destruct (isinstance e Exception); [|discriminate].
    destruct (run_except_fields self now e)
      as (d' & Hrun' & Hdom & Hid & Hti & _ & Hcat & Hsev & _ & Hs & Hf & _
          & Hr & _).
    assert (d' = d) as -> by congruence.
    split; [by rewrite Hdom|]. eauto 10.
Qed.

(** The scan pairs every probe with the result of running it. *)
Lemma run_all_checks_Forall2 (checks : list BaseCheck.t) (clock : nat → string) :
  Forall in_contract checks →
  ∃ results, run_all_checks checks clock = Return results ∧
    Forall2 (fun self d => ∃ now, BaseCheck.run self now = Return d)
            checks results.
Proof.
  intros Hall.
  destruct (run_all_checks_from_spec checks clock 0 [] Hall)
    as (results & Hrun & Hlen & Hnth).
  exists results. split; [exact Hrun|].
  apply Forall2_same_length_lookup_2; [done|].
  intros i self d Hself Hd. destruct (Hnth i self Hself) as (d' & Hrun' & Hd').
  exists (clock (0 + i)%nat). congruence.
Qed.

Lemma scan_results_status (checks : list BaseCheck.t) (results : list dict) :
  Forall2 (fun self d => ∃ now, BaseCheck.run self now = Return d) checks results →
  Forall (fun r => is_Some (r !! "status")) results.
Proof.
  induction 1 as [|self d checks results [now Hrun] _ IH]; [constructor|].
  constructor; [|done].
  destruct (run_result_fields self now d Hrun) as (_ & _ & _ & _ & _ & [t Ht] & _).
  by exists (VStr t).
Qed.

Lemma scan_results_category (checks : list BaseCheck.t) (results : list dict) :
  Forall2 (fun self d => ∃ now, BaseCheck.run self now = Return d) checks results →
  Forall (fun r => ∃ c, category_is c r) results ∧
  omap category_of results = BaseCheck.category <$> checks.
Proof.
  induction 1 as [|self d checks results [now Hrun] _ [IH1 IH2]]; [by split|].
  destruct (run_result_fields self now d Hrun) as (_ & _ & _ & Hcat & _).
  split.
  - constructor; [by exists (BaseCheck.category self)|done].
  - cbn [omap list_omap fmap list_fmap]. unfold category_of at 1.
    rewrite Hcat. by f_equal.
Qed.

(** The results of a scan are always fit for the aggregator and for the
    grouping: for probes within the contract neither raises, [total] is the
    number of probes, the group keys are the categories of the probes in
    first-seen order, and the groups hold every result once. *)
Theorem scan_feeds_statistics_and_groups (checks : list BaseCheck.t)
    (clock : nat → string) :
  Forall in_contract checks →
  ∃ results stats gs,
    run_all_checks checks clock = Return results ∧
    calculate_stats results = Return stats ∧
    stats !! "total" = Some (VInt (Z.of_nat (length checks))) ∧
    group_by_category results = Return gs ∧
    gs.*1 = VStr <$> first_seen (BaseCheck.category <$> checks) ∧
    concat gs.*2 ≡ₚ results.
Proof.
  intros Hall.
  destruct (run_all_checks_Forall2 checks clock Hall) as (results & Hrun & Hres).
  pose proof (scan_results_status checks results Hres) as Hstatus.
  destruct (scan_results_category checks results Hres) as [Hcat Hcats].
  destruct (calculate_stats_spec results Hstatus) as (score & Hstats & _).
  exists results. eexists. exists (group_by_category_spec results).
  split; [exact Hrun|]. split; [exact Hstats|].
  split; [rewrite mkdict_lookup; cbn; by rewrite (Forall2_length _ _ _ Hres)|].
  split; [exact (group_by_category_from_spec results [] Hcat)|].
  unfold group_by_category_spec. rewrite <- !list_fmap_compose, Hcats.
  split; [done|].
  rewrite <- Hcats.
  apply (concat_groups_perm results); [apply NoDup_first_seen|].
  apply Forall_forall. intros r Hr. rewrite Forall_forall in Hcat.
  destruct (Hcat r Hr) as [c Hc]. exists c. split; [done|].
  apply elem_of_first_seen, list_elem_of_omap. exists r.
  split; [done|by apply category_of_is].
Qed.

Lemma shipped_checks_in_contract (max_digits : nat) (env : environment) :
  env_contained env → Forall in_contract (shipped_checks max_digits env).
Proof.
  intros Henv. eapply Forall_impl; [by apply shipped_checks_reported|].
  intros self (o & Hcheck & _). left. eauto.
Qed.

(** A result of a probe that reports its outcome is complete and has no
    [error]. *)
Lemma run_reported_complete (self : BaseCheck.t) (now : string) (d : dict) :
  (∃ o, BaseCheck.check self = Return (VDict o) ∧ reported_outcome o) →
  BaseCheck.run self now = Return d →
  complete_result d ∧ d !! "error" = Some VNone.
Proof.
  intros (o & Hcheck & Hrep) Hrun.
  destruct (run_of_reported self now o Hcheck Hrep)
    as (d' & s & Hrun' & Hdom & _ & _ & _ & _ & _ & _ & _ & _ & _ & Herr).
  assert (d' = d) as -> by congruence.
  split; [by apply complete_result_dom|done].
Qed.

Ltac filter_by_category :=
  repeat first
    [ rewrite filter_cons_True by (unfold category_is; assumption)
    | rewrite filter_cons_False by (unfold category_is; congruence)
    | rewrite filter_nil ].

(** The scan of the dashboard, whatever the system answers (as long as no
    call into it is interrupted): five results, in the order of the list of
    probes, each complete and without [error], grouped into four categories
    in this order: the updates alone, the firewall with SSH, disk encryption
    alone, the screen lock alone. *)
Theorem shipped_scan_layout (max_digits : nat) (env : environment)
    (clock : nat → string) :
  env_contained env →
  ∃ updates firewall filevault screenlock ssh,
    run_all_checks (shipped_checks max_digits env) clock =
      Return [updates; firewall; filevault; screenlock; ssh] ∧
    updates !! "id" = Some (VStr "CIS-1.1") ∧
    firewall !! "id" = Some (VStr "CIS-2.1.1") ∧
    filevault !! "id" = Some (VStr "CIS-2.6.1") ∧
    screenlock !! "id" = Some (VStr "CIS-5.9") ∧
    ssh !! "id" = Some (VStr "CIS-4.2") ∧
    Forall (fun d => complete_result d ∧ d !! "error" = Some VNone)
           [updates; firewall; filevault; screenlock; ssh] ∧
    group_by_category [updates; firewall; filevault; screenlock; ssh] =
      Return [(VStr "System Updates", [updates]);
              (VStr "Network Security", [firewall; ssh]);
              (VStr "Data Protection", [filevault]);
              (VStr "Access Control", [screenlock])].
Proof.
  intros Henv.
  pose proof (shipped_checks_reported max_digits env Henv) as Hrep.
  destruct (run_all_checks_Forall2 _ clock
              (shipped_checks_in_contract max_digits env Henv))
    as (results & Hrun & Hres).
  unfold shipped_checks in Hres, Hrep.
  apply Forall2_cons_inv_l in Hres as (d1 & l1 & [t1 H1] & Hres & ->).
  apply Forall2_cons_inv_l in Hres as (d2 & l2 & [t2 H2] & Hres & ->).
  apply Forall2_cons_inv_l in Hres as (d3 & l3 & [t3 H3] & Hres & ->).
  apply Forall2_cons_inv_l in Hres as (d4 & l4 & [t4 H4] & Hres & ->).
  apply Forall2_cons_inv_l in Hres as (d5 & l5 & [t5 H5] & Hres & ->).
  apply Forall2_nil_inv_l in Hres as ->.
  apply Forall_cons in Hrep as [R1 Hrep]. apply Forall_cons in Hrep as [R2 Hrep].
  apply Forall_cons in Hrep as [R3 Hrep]. apply Forall_cons in Hrep as [R4 Hrep].
  apply Forall_cons in Hrep as [R5 _].
  destruct (run_result_fields _ _ _ H1) as (_ & I1 & _ & C1 & _).
  destruct (run_result_fields _ _ _ H2) as (_ & I2 & _ & C2 & _).
  destruct (run_result_fields _ _ _ H3) as (_ & I3 & _ & C3 & _).
  destruct (run_result_fields _ _ _ H4) as (_ & I4 & _ & C4 & _).
  destruct (run_result_fields _ _ _ H5) as (_ & I5 & _ & C5 & _).
  cbn [BaseCheck.id BaseCheck.category SoftwareUpdatesCheck FirewallCheck
       FileVaultCheck ScreenLockCheck SSHConfigCheck] in *.
  exists d1, d2, d3, d4, d5.
  split; [exact Hrun|]. do 5 (split; [assumption|]).
  split.
  - repeat apply Forall_cons_2; [| | | | |apply Forall_nil_2].
    + exact (run_reported_complete _ _ _ R1 H1).
    + exact (run_reported_complete _ _ _ R2 H2).
    + exact (run_reported_complete _ _ _ R3 H3).
    + exact (run_reported_complete _ _ _ R4 H4).
    + exact (run_reported_complete _ _ _ R5 H5).
  - assert (Forall (fun r => ∃ c, category_is c r) [d1; d2; d3; d4; d5]) as Hcat.
    { repeat apply Forall_cons_2; [| | | | |apply Forall_nil_2];
        [by eexists; exact C1|by eexists; exact C2|by eexists; exact C3
        |by eexists; exact C4|by eexists; exact C5]. }
    assert (group_by_category [d1; d2; d3; d4; d5] =
            Return (group_by_category_spec [d1; d2; d3; d4; d5])) as ->
      by exact (group_by_category_from_spec _ [] Hcat).
    clear -C1 C2 C3 C4 C5.
    unfold group_by_category_spec. cbn [app omap list_omap].
    unfold category_of. rewrite C1, C2, C3, C4, C5.
    cbn [omap list_omap].
    change (first_seen _) with
      ["System Updates"; "Network Security"; "Data Protection"; "Access Control"].
    cbn [fmap list_fmap]. filter_by_category. reflexivity.
Qed.

Lemma shipped_scan_layout_witness :
  env_contained env_firewall_on ∧
  ∃ updates firewall filevault screenlock ssh,
    run_all_checks (shipped_checks 4300 env_firewall_on) (fun _ => now0) =
      Return [updates; firewall; filevault; screenlock; ssh] ∧
    updates !! "id" = Some (VStr "CIS-1.1") ∧
    firewall !! "id" = Some (VStr "CIS-2.1.1") ∧
    filevault !! "id" = Some (VStr "CIS-2.6.1") ∧
    screenlock !! "id" = Some (VStr "CIS-5.9") ∧
    ssh !! "id" = Some (VStr "CIS-4.2") ∧
    Forall (fun d => complete_result d ∧ d !! "error" = Some VNone)
           [updates; firewall; filevault; screenlock; ssh] ∧
    group_by_category [updates; firewall; filevault; screenlock; ssh] =
      Return [(VStr "System Updates", [updates]);
              (VStr "Network Security", [firewall; ssh]);
              (VStr "Data Protection", [filevault]);
              (VStr "Access Control", [screenlock])].
Proof.
  split; [exact env_firewall_on_contained|].
  exact (shipped_scan_layout 4300 env_firewall_on (fun _ => now0)
           env_firewall_on_contained).
Defined.

(** ** The export *)

Lemma export_row_spec (r : dict) :
  Forall (fun k => is_Some (r !! k)) export_keys →
  ∃ row, export_row r = Return row ∧ row_of r row.
Proof.
  unfold export_keys. intros Hall.
  apply Forall_cons in Hall as [[v1 H1] Hall]. apply Forall_cons in Hall as [[v2 H2] Hall].
  apply Forall_cons in Hall as [[v3 H3] Hall]. apply Forall_cons in Hall as [[v4 H4] Hall].
  apply Forall_cons in Hall as [[v5 H5] Hall]. apply Forall_cons in Hall as [[v6 H6] _].
  unfold export_row, py_getitem. rewrite H1, H2, H3, H4, H5, H6.
  cbv [mbind outcome_bind mret outcome_ret py_get from_option].
  eexists. split; [reflexivity|]. unfold row_of.
  split; [rewrite dom_mkdict; set_solver|].
  rewrite H1, H2, H3, H4, H5, H6.
  repeat split; rewrite mkdict_lookup; reflexivity.
Qed.

(** Without one of the six keys the row is not built: the first missing key,
    in the order of the display, is the [KeyError]. *)
Lemma export_row_raises (r : dict) :
  ¬ Forall (fun k => is_Some (r !! k)) export_keys →
  ∃ k, export_row r = Raise (mk_exception KeyError ("'" +:+ k +:+ "'")) ∧
       k ∈ export_keys ∧ r !! k = None.
Proof.
  unfold export_keys, export_row, py_getitem. intros Hnot.
  destruct (r !! "id") as [v1|] eqn:H1;
    [|exists "id"; split; [reflexivity|split; [set_solver|done]]].
  destruct (r !! "title") as [v2|] eqn:H2;
    [|exists "title"; split; [reflexivity|split; [set_solver|done]]].
  destruct (r !! "category") as [v3|] eqn:H3;
    [|exists "category"; split; [reflexivity|split; [set_solver|done]]].
  destruct (r !! "status") as [v4|] eqn:H4;
    [|exists "status"; split; [reflexivity|split; [set_solver|done]]].
  destruct (r !! "severity") as [v5|] eqn:H5;
    [|exists "severity"; split; [reflexivity|split; [set_solver|done]]].
  destruct (r !! "finding") as [v6|] eqn:H6;
    [|exists "finding"; split; [reflexivity|split; [set_solver|done]]].
  exfalso. apply Hnot.
  repeat apply Forall_cons_2; [| | | | | |apply Forall_nil_2]; eauto.
Qed.

Lemma export_rows_spec (results : list dict) :
  Forall (fun r => Forall (fun k => is_Some (r !! k)) export_keys) results →
  ∃ rows, export_rows results = Return rows ∧ Forall2 row_of results rows.
Proof.
  induction 1 as [|r results Hr _ (rows & IH & Hrows)].
  - exists []. split; [reflexivity|constructor].
  - destruct (export_row_spec r Hr) as (row & Hrow & Hof).
    exists (row :: rows). cbn [export_rows]. rewrite Hrow, IH.
    split; [reflexivity|by constructor].
Qed.

(** The export reads six keys of every result with [r[...]] and the risk
    with a default.  When every result has the six keys there is one row per
    result and a missing risk becomes "N/A"; otherwise the [KeyError] of a
    missing key of some result ends the export, and no row is returned. *)
Theorem export_rows_needs_six_keys (results : list dict) :
  (Forall (fun r => Forall (fun k => is_Some (r !! k)) export_keys) results →
   ∃ rows, export_rows results = Return rows ∧ Forall2 row_of results rows) ∧
  (¬ Forall (fun r => Forall (fun k => is_Some (r !! k)) export_keys) results →
   ∃ r k, r ∈ results ∧ k ∈ export_keys ∧ r !! k = None ∧
     export_rows results = Raise (mk_exception KeyError ("'" +:+ k +:+ "'"))).
Proof.
  split; [apply export_rows_spec|].
  induction results as [|r results IH]; intros Hnot; [by destruct Hnot|].
  destruct (decide (Forall (fun k => is_Some (r !! k)) export_keys)) as [Hr|Hr].
  - destruct IH as (r' & k & Hin & Hk & Hnone & Hraise).
    { intros Hall. apply Hnot. by constructor. }
    destruct (export_row_spec r Hr) as (row & Hrow & _).
    exists r', k. split; [by apply elem_of_cons; right|].
    do 2 (split; [done|]). cbn [export_rows]. by rewrite Hrow, Hraise.
  - destruct (export_row_raises r Hr) as (k & Hraise & Hk & Hnone).
    exists r, k. split; [by apply elem_of_cons; left|].
    do 2 (split; [done|]). cbn [export_rows]. by rewrite Hraise.
Qed.

Lemma run_result_export_keys (self : BaseCheck.t) (now : string) (d : dict) :
  BaseCheck.run self now = Return d →
  Forall (fun k => is_Some (d !! k)) export_keys.
Proof.
  intros Hrun.
  destruct (run_result_fields self now d Hrun)
    as (_ & Hid & Hti & Hcat & Hsev & [t Hs] & Hf & _).
  unfold export_keys.
  repeat apply Forall_cons_2; [| | | | | |apply Forall_nil_2]; eauto.
Qed.

(** The export of a scan: one row per probe, in order, of exactly seven
    columns; identity columns are those of the probe, the other three are
    copied from the result, and the "N/A" default of [Risk] is never used
    because [run] writes a risk on both of its paths. *)
Theorem export_rows_of_scan (checks : list BaseCheck.t) (clock : nat → string) :
  Forall in_contract checks →
  ∃ results rows,
    run_all_checks checks clock = Return results ∧
    export_rows results = Return rows ∧
    length rows = length checks ∧
    ∀ i self, checks !! i = Some self →
      ∃ d row, results !! i = Some d ∧ rows !! i = Some row ∧
        dom row = list_to_set ["ID"; "Title"; "Category"; "Status"; "Severity";
                               "Finding"; "Risk"] ∧
        row !! "ID" = Some (VStr (BaseCheck.id self)) ∧
        row !! "Title" = Some (VStr (BaseCheck.title self)) ∧
        row !! "Category" = Some (VStr (BaseCheck.category self)) ∧
        row !! "Severity" = Some (VStr (Severity_value (BaseCheck.severity self))) ∧
        row !! "Status" = d !! "status" ∧
        row !! "Finding" = d !! "finding" ∧
        row !! "Risk" = d !! "risk".
Proof.
  intros Hall.
  destruct (run_all_checks_Forall2 checks clock Hall) as (results & Hrun & Hres).
  assert (Forall (fun r => Forall (fun k => is_Some (r !! k)) export_keys) results)
    as Hkeys.
  { clear Hrun. induction Hres as [|self d checks results [now Hd] _ IH];
      [constructor|]. apply Forall_cons in Hall as [_ Hall].
    constructor; [by eapply run_result_export_keys|by apply IH]. }
  destruct (export_rows_spec results Hkeys) as (rows & Hexp & Hrows).
  exists results, rows. split; [exact Hrun|]. split; [exact Hexp|].
  split; [by rewrite <- (Forall2_length _ _ _ Hrows), (Forall2_length _ _ _ Hres)|].
  intros i self Hself.
  destruct (Forall2_lookup_l _ _ _ _ _ Hres Hself) as (d & Hd & [now Hnow]).
  destruct (Forall2_lookup_l _ _ _ _ _ Hrows Hd)
    as (row & Hrow & Hdom & Hid & Hti & Hcat & Hst & Hsev & Hfi & Hri).
  destruct (run_result_fields self now d Hnow)
    as (_ & Hid' & Hti' & Hcat' & Hsev' & _ & _ & [risk Hrisk]).
  exists d, row. rewrite Hrisk in Hri. cbn in Hri.
  rewrite <- Hid', <- Hti', <- Hcat', <- Hsev', Hrisk.
  repeat split; assumption.
Qed.

(** ** Results the dashboard cannot digest *)

(** A result without status stops the count with a [KeyError]. *)
Lemma count_status_from_raises (status : string) (results : list dict) (acc : Z) :
  ¬ Forall (fun r => is_Some (r !! "status")) results →
  count_status_from status results acc = Raise (mk_exception KeyError "'status'").
Proof.
  revert acc. induction results as [|r results IH]; intros acc Hnot.
  - by destruct Hnot.
  - cbn [count_status_from]. unfold py_getitem.
    destruct (r !! "status") as [v|] eqn:Hv; [|reflexivity].
    cbv [mbind outcome_bind]. apply IH. intros Hall. apply Hnot.
    constructor; [by rewrite Hv|done].
Qed.

(** The aggregator returns exactly when every result has a ['status'] key:
    then the statistics have the five keys; a result without status is a
    [KeyError], whatever the other results are. *)
Theorem calculate_stats_needs_status (results : list dict) :
  (Forall (fun r => is_Some (r !! "status")) results →
   ∃ stats, calculate_stats results = Return stats ∧
     dom stats = list_to_set ["total"; "passed"; "failed"; "warnings";
                              "compliance_score"]) ∧
  (¬ Forall (fun r => is_Some (r !! "status")) results →
   calculate_stats results = Raise (mk_exception KeyError "'status'")).
Proof.
  split.
  - intros Hall.
    destruct (calculate_stats_spec results Hall) as (score & Hstats & _).
    eexists. split; [exact Hstats|]. rewrite dom_mkdict. set_solver.
  - intros Hnot. unfold calculate_stats, count_status.
    by rewrite (count_status_from_raises "PASS" results 0 Hnot).
Qed.

(** The loop of the grouping, over a prefix of results with a text
    category. *)
Lemma group_by_category_from_app (pre rest done : list dict) :
  Forall (fun r => ∃ c, category_is c r) pre →
  group_by_category_from (pre ++ rest) (group_by_category_spec done) =
  group_by_category_from rest (group_by_category_spec (done ++ pre)).
Proof.
  intros Hall. revert done.
  induction Hall as [|r pre [c Hc] _ IH]; intros done.
  - by rewrite app_nil_r.
  - cbn [app group_by_category_from]. unfold py_getitem.
    rewrite Hc. cbv [mbind outcome_bind py_hash mret outcome_ret].
    rewrite (group_step c r done Hc), IH, <- app_assoc. reflexivity.
Qed.

(** The grouping stops at the first result that has no ['category'] (a
    [KeyError]) or whose category is a list or a dictionary (a [TypeError]:
    it cannot be a key); the results grouped before it are lost. *)
Theorem group_by_category_needs_category (pre post : list dict) (r : dict) :
  Forall (fun r => ∃ c, category_is c r) pre →
  (r !! "category" = None →
   group_by_category (pre ++ r :: post) =
     Raise (mk_exception KeyError "'category'")) ∧
  (∀ v, r !! "category" = Some v → (∃ l, v = VList l) ∨ (∃ m, v = VDict m) →
   ∃ e, group_by_category (pre ++ r :: post) = Raise e ∧
        exc_type e = TypeError).
Proof.
  intros Hpre. unfold group_by_category.
  change (@nil (pyval * list dict)) with (group_by_category_spec []).
  rewrite (group_by_category_from_app pre (r :: post) [] Hpre).
  cbn [group_by_category_from]. unfold py_getitem. split.
  - by intros ->.
  - intros v -> [[l ->]|[m ->]]; eexists; split; reflexivity.
Qed.

(** ** The range of the score *)

(** Rounding to an integer respects integer bounds. *)
Lemma round_half_even_le (q : Q) (N : Z) :
  (q <= inject_Z N)%Q → round_half_even q ≤ N.
Proof.
  intros Hq. unfold round_half_even.
  pose proof (Qfloor_le q) as Hf.
  assert (Qfloor q ≤ N) as HfN.
  { rewrite <- (Qfloor_Z N). by apply Qfloor_resp_le. }
  destruct (decide (Qfloor q = N)) as [Heq|Hne].
  - assert (((q - inject_Z (Qfloor q)) ?= (1 # 2))%Q = Lt) as ->; [|lia].
    apply Qlt_alt. rewrite Heq.
    apply Qle_lt_trans with 0%Q; [|done].
    apply (Qplus_le_l _ _ (inject_Z N)). ring_simplify. exact Hq.
  - destruct (_ ?= _)%Q; [destruct (Z.even _)| |]; lia.
Qed.

Lemma round_half_even_ge (q : Q) (N : Z) :
  (inject_Z N <= q)%Q → N ≤ round_half_even q.
Proof.
  intros Hq. unfold round_half_even.
  assert (N ≤ Qfloor q) as HfN.
  { rewrite <- (Qfloor_Z N). by apply Qfloor_resp_le. }
  destruct (_ ?= _)%Q; [destruct (Z.even _)| |]; lia.
Qed.

(** The exponent of a rational of magnitude at most [2^52]. *)
Lemma Qlog2_floor_le_52 (q : Q) :
  (0 < q)%Q → (q <= inject_Z (2 ^ 52))%Q → Qlog2_floor q ≤ 52.
Proof.
  intros Hpos Hle. unfold Qlog2_floor.
  assert (Z.log2 (Qnum q) - Z.log2 (Z.pos (Qden q)) ≤ 52) as He0.
  { destruct q as [a b]. unfold Qlt, Qle in *. cbn [Qnum Qden inject_Z] in *.
    assert (0 < a) as Ha by lia.
    pose proof (Z.log2_spec (Z.pos b) eq_refl) as [_ Hb].
    assert (a < 2 ^ (53 + Z.log2 (Z.pos b))) as Hlt.
    { pose proof (Z.log2_nonneg (Z.pos b)).
      rewrite Z.pow_add_r by lia.
      rewrite Z.pow_succ_r in Hb by lia.
      generalize dependent (2 ^ Z.log2 (Z.pos b)). intros P HP.
      change (2 ^ 53) with 9007199254740992.
      change (2 ^ 52) with 4503599627370496 in Hle.
      lia. }
    apply (Z.log2_lt_pow2 a _ Ha) in Hlt. lia. }
  destruct (Qle_bool _ _); lia.
Qed.

(** A power of two with a negative exponent is the inverse of an integer. *)
Lemma Qpower_2_nonpos (t : Z) :
  t ≤ 0 → (Qpower 2 t == / inject_Z (2 ^ (- t)))%Q.
Proof.
  intros Ht. replace t with (- - t) at 1 by lia.
  rewrite Qpower_opp. apply Qinv_comp.
  rewrite Zpower_Qpower by lia. reflexivity.
Qed.

(** Rounding to binary64 never leaves an interval with integer ends of
    magnitude at most [2^52]: those ends are on every grid the rounding
    uses. *)
Lemma b64_round_between (y : Q) (lo hi : Z) :
  - 2 ^ 52 ≤ lo → hi ≤ 2 ^ 52 →
  (inject_Z lo <= y)%Q → (y <= inject_Z hi)%Q →
  (inject_Z lo <= b64_round y)%Q ∧ (b64_round y <= inject_Z hi)%Q.
Proof.
  intros Hlo Hhi Hly Hyh. unfold b64_round.
  pose proof (Qred_correct y) as Hred. set (q := Qred y) in *.
  rewrite <- Hred in Hly, Hyh. clearbody q. clear Hred y.
  destruct (Qeq_bool q 0) eqn:Hz.
  - apply Qeq_bool_iff in Hz. rewrite Hz in Hly, Hyh. by split.
  - apply Qeq_bool_neq in Hz.
    set (t := Z.max (Qlog2_floor (Qabs q) - 52) (-1074)).
    assert (t ≤ 0) as Ht.
    { assert (Qlog2_floor (Qabs q) ≤ 52); [|lia].
      apply Qlog2_floor_le_52.
      - apply Qabs_case; intros Hs.
        + apply Qle_lteq in Hs as [Hs|Hs]; [done|]. by destruct Hz.
        + apply Qle_lteq in Hs as [Hs|Hs]; [|by destruct Hz].
          apply (Qopp_lt_compat q 0) in Hs. exact Hs.
      - apply Qabs_Qle_condition. split.
        + apply Qle_trans with (inject_Z lo); [|done].
          change (- inject_Z (2 ^ 52))%Q with (inject_Z (- 2 ^ 52)).
          by rewrite <- Zle_Qle.
        + apply Qle_trans with (inject_Z hi); [done|]. by rewrite <- Zle_Qle. }
    clearbody t. set (K := 2 ^ (- t)).
    assert (0 < K) as HK by (apply Z.pow_pos_nonneg; lia).
    assert (0 < inject_Z K)%Q as HKq.
    { change 0%Q with (inject_Z 0). by rewrite <- Zlt_Qlt. }
    pose proof (Qpower_2_nonpos t Ht) as Hulp. fold K in Hulp.
    set (ulp := Qpower 2 t) in *. clearbody ulp.
    assert (q / ulp == q * inject_Z K)%Q as Hdiv.
    { rewrite Hulp. unfold Qdiv. by rewrite Qinv_involutive. }
    assert (lo * K ≤ round_half_even (q / ulp) ≤ hi * K) as [Hr1 Hr2].
    { split.
      - apply round_half_even_ge. rewrite Hdiv, inject_Z_mult.
        apply Qmult_le_compat_r; [done|]. by apply Qlt_le_weak.
      - apply round_half_even_le. rewrite Hdiv, inject_Z_mult.
        apply Qmult_le_compat_r; [done|]. by apply Qlt_le_weak. }
    generalize dependent (round_half_even (q / ulp)). intros r Hr1 Hr2.
    rewrite Qred_correct, Hulp.
    split.
    + apply Qle_shift_div_l; [done|].
      by rewrite <- inject_Z_mult, <- Zle_Qle.
    + apply Qle_shift_div_r; [done|].
      by rewrite <- inject_Z_mult, <- Zle_Qle.
Qed.

(** The three roundings of the score keep it between 0 and 100. *)
Lemma score_between (passed total : Z) (q : Q) :
  0 ≤ passed ≤ total → 0 < total →
  int_truediv passed total = Return q →
  (0 <= float_round_1 (float_mul q (float_of_int 100)))%Q ∧
  (float_round_1 (float_mul q (float_of_int 100)) <= 100)%Q.
Proof.
  intros [Hp Hpt] Ht. unfold int_truediv.
  destruct (total =? 0) eqn:Hz; [apply Z.eqb_eq in Hz; lia|]. intros [= <-].
  assert (0 < inject_Z total)%Q as Htq.
  { change 0%Q with (inject_Z 0). by rewrite <- Zlt_Qlt. }
  destruct (b64_round_between (inject_Z passed / inject_Z total) 0 1)
    as [Hq0 Hq1]; [lia|lia| | |].
  { apply Qle_shift_div_l; [done|]. rewrite Qmult_0_l.
    change 0%Q with (inject_Z 0). by rewrite <- Zle_Qle. }
  { apply Qle_shift_div_r; [done|]. rewrite Qmult_1_l. by rewrite <- Zle_Qle. }
  set (q := b64_round (inject_Z passed / inject_Z total)) in *. clearbody q.
  destruct (b64_round_between (inject_Z 100) 100 100) as [Hc0 Hc1];
    [lia|lia|apply Qle_refl|apply Qle_refl|].
  unfold float_of_int. set (c := b64_round (inject_Z 100)) in *. clearbody c.
  assert (c == 100)%Q as Hc by (by apply Qle_antisym).
  unfold float_mul.
  destruct (b64_round_between (q * c) 0 100) as [Hm0 Hm1]; [lia|lia| | |].
  { rewrite Hc. change (inject_Z 0) with (0 * 100)%Q.
    by apply Qmult_le_compat_r. }
  { rewrite Hc. change (inject_Z 100) with (1 * 100)%Q.
    by apply Qmult_le_compat_r. }
  set (m := b64_round (q * c)) in *. clearbody m.
  unfold float_round_1.
  apply (b64_round_between _ 0 100); [lia|lia| |].
  - apply Qle_shift_div_l; [done|]. rewrite Qmult_0_l.
    change 0%Q with (inject_Z 0). rewrite <- Zle_Qle.
    apply round_half_even_ge. change (inject_Z 0) with (0 * 10)%Q.
    by apply Qmult_le_compat_r.
  - apply Qle_shift_div_r; [done|].
    change (inject_Z 100 * 10)%Q with (inject_Z 1000). rewrite <- Zle_Qle.
    apply round_half_even_le. change (inject_Z 1000) with (100 * 10)%Q.
    by apply Qmult_le_compat_r.
Qed.

(** The compliance score is the integer [0] for no result and otherwise a
    [float] between 0 and 100: none of the three roundings (of the quotient,
    of the product, of the decimal place) leaves the interval. *)
Theorem compliance_score_range (results : list dict) :
  Forall (fun r => is_Some (r !! "status")) results →
  ∃ stats, calculate_stats results = Return stats ∧
    (results = [] → stats !! "compliance_score" = Some (VInt 0)) ∧
    (results ≠ [] →
     ∃ x, stats !! "compliance_score" = Some (VFloat x) ∧ (0 <= x)%Q ∧ (x <= 100)%Q).
Proof.
  intros Hall.
  destruct (calculate_stats_spec results Hall) as (score & Hstats & Hnil & Hcons).
  eexists. split; [exact Hstats|]. split.
  - intros Hres. rewrite mkdict_lookup. cbn. by rewrite (Hnil Hres).
  - intros Hres. destruct (Hcons Hres) as (q & Hq & ->).
    eexists. split; [rewrite mkdict_lookup; reflexivity|].
    apply (score_between _ _ q) in Hq; [done| |].
    + pose proof (length_filter (status_is PASS) results). lia.
    + destruct results; [done|]. cbn [length]. lia.
Qed.

(** On a number the colour is defined, and it is one of the five. *)
Lemma get_score_color_number (score : pyval) (x : Q) :
  py_num score = Some x →
  ∃ color, get_score_color score = Return color ∧ color ∈ score_colors.
Proof.
  intros Hx. unfold get_score_color, py_ge_int. rewrite Hx.
  cbv [mbind outcome_bind mret outcome_ret]. unfold score_colors.
  repeat (destruct (Qle_bool _ x); [eexists; split; [reflexivity|set_solver]|]).
  eexists; split; [reflexivity|set_solver].
Qed.

(** The score of the aggregator always has a colour: [get_score_color] does
    not raise on it and returns one of the five colours, the best one when
    every result passed and the worst one when none did (also when there is
    no result at all). *)
Theorem score_color_of_statistics (results : list dict) :
  Forall (fun r => is_Some (r !! "status")) results →
  ∃ stats score color,
    calculate_stats results = Return stats ∧
    stats !! "compliance_score" = Some score ∧
    get_score_color score = Return color ∧
    color ∈ score_colors ∧
    (results ≠ [] → Forall (status_is PASS) results → color = "#44dd88") ∧
    (Forall (fun r => ¬ status_is PASS r) results → color = "#ff4444").
Proof.
  intros Hall.
  destruct (calculate_stats_spec results Hall) as (score & Hstats & Hnil & Hcons).
  assert (∃ x, py_num score = Some x) as [x Hx].
  { destruct results as [|r results].
    - rewrite Hnil by done. by eexists.
    - destruct Hcons as (q & _ & ->); [done|]. by eexists. }
  destruct (get_score_color_number score x Hx) as (color & Hcolor & Hin).
  eexists. exists score, color.
  split; [exact Hstats|]. split; [rewrite mkdict_lookup; reflexivity|].
  split; [exact Hcolor|]. split; [exact Hin|]. split.
  - intros Hne Hpass. destruct (Hcons Hne) as (q & Hq & ->).
    rewrite (filter_length_all (status_is PASS) results Hpass) in Hq.
    rewrite int_truediv_same in Hq by (destruct results; [done|cbn [length]; lia]).
    injection Hq as <-. rewrite score_full in Hcolor.
    by injection Hcolor as <-.
  - intros Hnone. destruct results as [|r results].
    + rewrite Hnil in Hcolor by done. by injection Hcolor as <-.
    + destruct Hcons as (q & Hq & ->); [done|].
      rewrite (proj2 (filter_length_0 (status_is PASS) (r :: results)) Hnone) in Hq.
      rewrite int_truediv_zero in Hq by (cbn [length]; lia).
      injection Hq as <-. rewrite score_none in Hcolor.
      by injection Hcolor as <-.
Qed.

(** The status of whatever [run] returns is a text, so [get_status_icon]
    does not raise on it; the question mark stands for every status other
    than "PASS", "FAIL" and "WARNING" ("ERROR" and "NOT_APPLICABLE"
    alike). *)
Theorem status_icon_of_result (self : BaseCheck.t) (now : string) (d : dict) :
  BaseCheck.run self now = Return d →
  ∃ t icon, d !! "status" = Some (VStr t) ∧
    get_status_icon (VStr t) = Return icon ∧
    (icon = "❓" ↔ t ∉ ["PASS"; "FAIL"; "WARNING"]).
Proof.
  intros Hrun.
  destruct (run_result_fields self now d Hrun) as (_ & _ & _ & _ & _ & [t Ht] & _).
  exists t. unfold get_status_icon, py_eq_str.
  cbv [mbind outcome_bind mret outcome_ret py_hash].
  eexists. split; [exact Ht|]. split; [reflexivity|].
  repeat case_bool_decide; subst; split; intros Hicon; try done; set_solver.
Qed.

(** ** The configuration loader *)

(** [split] never returns the empty list. *)
Lemma split_not_nil (sep : Ascii.ascii) (s : string) : PyStr.split sep s ≠ [].
Proof.
  destruct s as [|c s]; cbn [PyStr.split]; [done|].
  destruct (Ascii.eqb c sep); [done|]. by destruct (PyStr.split sep s).
Qed.

(** Splitting a text that starts with a component free of the separator. *)
Lemma split_cons (sep : Ascii.ascii) (k rest : string) :
  PyStr.split sep k = [k] →
  PyStr.split sep (k +:+ String sep rest) = k :: PyStr.split sep rest.
Proof.
  induction k as [|c k IH]; simpl.
  - intros _. by rewrite Ascii.eqb_refl.
  - destruct (Ascii.eqb c sep); [discriminate|].
    destruct (PyStr.split sep k) as [|w ws] eqn:Hk;
      [by destruct (split_not_nil sep k)|].
    intros [= -> ->]. by rewrite IH.
Qed.

(** The loop of [get] returns [None] only as the default, or as the
    starting value when there is no component. *)
Lemma get_from_not_None (keys : list string) (value default : pyval) :
  default ≠ VNone → (keys = [] → value ≠ VNone) →
  ConfigLoader.get_from keys value default ≠ VNone.
Proof.
  intros Hd. revert value.
  induction keys as [|k keys IH]; intros value Hv; cbn [ConfigLoader.get_from].
  - by apply Hv.
  - destruct value as [| | | | | | | |d]; try done.
    destruct (d !! k) as [v|]; [|done].
    destruct v; try done; by apply IH.
Qed.

(** With a default other than [None], [get] never returns [None]: a key
    that is absent, a value that is null and a path through a value that is
    no mapping all give the default. *)
Theorem get_never_None (self : ConfigLoader.t) (key : string) (default : pyval) :
  default ≠ VNone → ConfigLoader.get self key default ≠ VNone.
Proof.
  intros Hd. unfold ConfigLoader.get. apply get_from_not_None; [done|].
  intros Hnil. by destruct (split_not_nil "." key).
Qed.

(** A dotted key descends one level at a time: [get] of ["k.rest"], for a
    component [k] without dot, is [get] of ["rest"] in the section [k], and
    the default when the configuration is no mapping or has no section [k]
    (or a null one). *)
Theorem get_descends (self : ConfigLoader.t) (k rest : string) (default : pyval) :
  PyStr.split "." k = [k] →
  ConfigLoader.get self (k +:+ "." +:+ rest) default =
  match ConfigLoader.config self with
  | VDict d =>
      match d !! k with
      | None | Some VNone => default
      | Some section =>
          ConfigLoader.get
            (ConfigLoader.mk (ConfigLoader.config_path self) section) rest default
      end
  | _ => default
  end.
Proof.
  intros Hk. unfold ConfigLoader.get.
  change ("." +:+ rest) with (String "." rest).
  rewrite (split_cons "." k rest Hk). cbn [ConfigLoader.get_from ConfigLoader.config].
  by destruct (ConfigLoader.config self).
Qed.

(** The three section getters against [get(section, {})].  They agree on a
    mapping whose section is present or absent; on a section that is present
    but null the getter returns [None] where [get] returns the default; and
    on a configuration that is no mapping (an empty document, a list, a
    scalar) the getter raises [AttributeError] where [get] returns the
    default for every key. *)
Theorem section_getters_against_get (self : ConfigLoader.t)
    (getter : ConfigLoader.t → outcome pyval) (section : string) :
  (getter, section) ∈ [(ConfigLoader.get_scanning_config, "scanning");
                       (ConfigLoader.get_reporting_config, "reporting");
                       (ConfigLoader.get_scoring_config, "scoring")] →
  match ConfigLoader.config self with
  | VDict d =>
      match d !! section with
      | Some VNone =>
          getter self = Return VNone ∧
          ConfigLoader.get self section (VDict ∅) = VDict ∅
      | _ => getter self = Return (ConfigLoader.get self section (VDict ∅))
      end
  | _ =>
      (∃ e, getter self = Raise e ∧ exc_type e = AttributeError) ∧
      ∀ key default, ConfigLoader.get self key default = default
  end.
Proof.
  intros Hin.
  assert (getter self = py_get (ConfigLoader.config self) section (VDict ∅) ∧
          PyStr.split "." section = [section]) as [-> Hsplit].
  { repeat (apply elem_of_cons in Hin as [[= -> ->]|Hin]; [by split|]).
    by apply elem_of_nil in Hin. }
  unfold ConfigLoader.get. rewrite Hsplit. clear Hin Hsplit.
  destruct (ConfigLoader.config self) as [| | | | | | | |d] eqn:Hc;
    try (split; [eexists; split; reflexivity|];
         intros key default;
         destruct (PyStr.split "." key) as [|k ks] eqn:Hk;
           [by destruct (split_not_nil "." key)|reflexivity]).
  cbn [py_get ConfigLoader.get_from].
  destruct (d !! section) as [v|]; [|reflexivity].
  destruct v; try reflexivity. by split.
Qed.

(** Constructing a loader.  A path that does not exist is a
    [FileNotFoundError] that names it, and the file is not opened; a loader
    is returned exactly when the path exists, the file can be read and the
    document parses, and it then holds the path and the parsed document. *)
Theorem loader_construction (env : environment)
    (yaml_safe_load : string → outcome pyval) (config_path : string) :
  (os_path_exists env config_path = false →
   ConfigLoader.__init__ env yaml_safe_load config_path =
     Raise (mk_exception FileNotFoundError
              ("Configuration file not found: " +:+ config_path))) ∧
  (∀ self, ConfigLoader.__init__ env yaml_safe_load config_path = Return self ↔
     os_path_exists env config_path = true ∧
     ∃ f, open_read env config_path = Return f ∧
          yaml_safe_load f = Return (ConfigLoader.config self) ∧
          ConfigLoader.config_path self = config_path).
Proof.
  unfold ConfigLoader.__init__, ConfigLoader._load_config. split.
  - by intros ->.
  - intros self. destruct (os_path_exists env config_path); cbn [negb].
    + destruct (open_read env config_path) as [f|e];
        cbv [mbind outcome_bind mret outcome_ret].
      * destruct (yaml_safe_load f) as [v|e] eqn:Hy.
        -- split.
           ++ intros [= <-]. split; [done|]. exists f. by rewrite Hy.
           ++ intros (_ & f' & [= <-] & Hy' & Hp). destruct self as [p c].
              cbn in *. congruence.
        -- split; [done|]. intros (_ & f' & [= <-] & Hy' & _). congruence.
      * split; [done|]. by intros (_ & f' & ? & _).
    + split; [done|]. by intros [? _].
Qed.

(** ** What the shipped probes report *)

(** One line adds at most one name, and never an empty one. *)
Lemma parse_update_line_spec (updates : list string) (line : string) :
  parse_update_line updates line = updates ∨
  ∃ name, name ≠ "" ∧ parse_update_line updates line = updates ++ [name].
Proof.
  unfold parse_update_line.
  destruct (_ || _); [|by left].
  case_bool_decide as Hname; [right; eauto|by left].
Qed.

Lemma parse_updates_from_spec (lines updates : list string) :
  ∃ names, fold_left parse_update_line lines updates = updates ++ names ∧
    Forall (fun name => name ≠ "") names ∧
    (length names ≤ length lines)%nat.
Proof.
  revert updates. induction lines as [|line lines IH]; intros updates.
  - exists []. by rewrite app_nil_r.
  - cbn [fold_left].
    destruct (parse_update_line_spec updates line) as [->|(name & Hname & ->)].
    + destruct (IH updates) as (names & -> & Hall & Hlen).
      exists names. repeat split; [done|cbn [length]; lia].
    + destruct (IH (updates ++ [name])) as (names & -> & Hall & Hlen).
      exists (name :: names). rewrite <- app_assoc.
      repeat split; [by constructor|cbn [length]; lia].
Qed.

(** [_parse_updates] returns no empty name and at most one name per line of
    the output; an empty output has no update. *)
Theorem parse_updates_names (output : string) :
  Forall (fun name => name ≠ "") (_parse_updates output) ∧
  (length (_parse_updates output) ≤ length (PyStr.split "010" output))%nat ∧
  _parse_updates "" = [].
Proof.
  unfold _parse_updates.
  destruct (parse_updates_from_spec (PyStr.split "010" output) [])
    as (names & -> & Hall & Hlen).
  by repeat split.
Qed.












(** A return value of [check()] that is no outcome takes the fault path: a
    value that is no dictionary, and a dictionary whose status is not an
    enumeration member (the text "PASS" for instance), both give a result
    with status "ERROR", finding "Check execution failed" and the
    [AttributeError] text as [error]. *)
Theorem run_rejects_malformed_outcome (self : BaseCheck.t) (now : string)
    (v : pyval) :
  BaseCheck.check self = Return v →
  match v with
  | VDict o =>
      ∀ status, o !! "status" = Some status →
        (∀ s, status ≠ VStatus s) → (∀ s, status ≠ VSeverity s) →
        ∃ d, BaseCheck.run self now = Return d ∧
          d !! "status" = Some (VStr "ERROR") ∧
          d !! "finding" = Some (VStr "Check execution failed") ∧
          d !! "error" =
            Some (VStr ("'" +:+ type_name status
                        +:+ "' object has no attribute 'value'"))
  | _ =>
      ∃ d, BaseCheck.run self now = Return d ∧
        d !! "status" = Some (VStr "ERROR") ∧
        d !! "finding" = Some (VStr "Check execution failed") ∧
        d !! "error" =
          Some (VStr ("'" +:+ type_name v +:+ "' object has no attribute 'get'"))
  end.
Proof.
  intros Hcheck.
  assert (∀ e, BaseCheck.run_try self now = Raise e →
            exc_type e = AttributeError →
            ∃ d, BaseCheck.run self now = Return d ∧
              d !! "status" = Some (VStr "ERROR") ∧
              d !! "finding" = Some (VStr "Check execution failed") ∧
              d !! "error" = Some (VStr (exc_str e))) as Hfault.
  { intros e Htry Hty. rewrite (run_on_raise self now e Htry).
    unfold isinstance. rewrite Hty. cbn [issubclass].
    destruct (run_except_fields self now e)
      as (d & Hrun & _ & _ & _ & _ & _ & _ & _ & Hs & Hf & _ & _ & _ & _ & He).
    exists d. done. }
  destruct v as [| | | | | | | |o];
    try (apply (Hfault (no_attribute _ "get")); [|reflexivity];
         unfold BaseCheck.run_try; rewrite Hcheck; reflexivity).
  intros status Hst Hns Hnv.
  apply (Hfault (no_attribute status "value")); [|reflexivity].
  unfold BaseCheck.run_try. rewrite Hcheck. run_step. rewrite Hst.
  destruct status as [| | | | |s|s| |]; try reflexivity;
    [by destruct (Hns s)|by destruct (Hnv s)].
Qed.

(** ** The properties above, at concrete inputs *)

Lemma faulting_probe_in_contract : in_contract faulting_probe.
Proof. right. eexists. split; reflexivity. Qed.

Lemma terse_probe_in_contract : in_contract terse_probe.
Proof. left. eexists. reflexivity. Qed.

Lemma two_probes_in_contract : Forall in_contract [faulting_probe; terse_probe].
Proof.
  repeat apply Forall_cons_2; [| |apply Forall_nil_2].
  - exact faulting_probe_in_contract.
  - exact terse_probe_in_contract.
Qed.

Lemma Firewall_is_shipped :
  FirewallCheck env_firewall_on ∈ shipped_checks 4300 env_firewall_on.
Proof. unfold shipped_checks. apply elem_of_cons. right. apply elem_of_cons. by left. Qed.

Lemma shipped_results_complete_witness :
  env_contained env_firewall_on ∧
  FirewallCheck env_firewall_on ∈ shipped_checks 4300 env_firewall_on ∧
  ∃ d s risk,
    BaseCheck.run (FirewallCheck env_firewall_on) now0 = Return d ∧
    complete_result d ∧
    d !! "status" = Some (VStr (CheckStatus_value s)) ∧
    s ∈ [PASS; FAIL; WARNING; ERROR] ∧
    d !! "error" = Some VNone ∧
    d !! "risk" = Some (VStr risk) ∧ risk ≠ "" ∧
    d !! "remediation" =
      Some (VStr (BaseCheck.remediation (FirewallCheck env_firewall_on))) ∧
    d !! "timestamp" = Some (VStr now0).
Proof.
  split; [exact env_firewall_on_contained|]. split; [exact Firewall_is_shipped|].
  exact (shipped_results_complete 4300 env_firewall_on _ now0
           env_firewall_on_contained Firewall_is_shipped).
Defined.

Lemma scan_feeds_statistics_and_groups_witness :
  Forall in_contract [faulting_probe; terse_probe] ∧
  ∃ results stats gs,
    run_all_checks [faulting_probe; terse_probe] (fun _ => now0) = Return results ∧
    calculate_stats results = Return stats ∧
    stats !! "total" = Some (VInt 2) ∧
    group_by_category results = Return gs ∧
    gs.*1 = [VStr ""] ∧
    concat gs.*2 ≡ₚ results.
Proof.
  split; [exact two_probes_in_contract|].
  exact (scan_feeds_statistics_and_groups _ (fun _ => now0) two_probes_in_contract).
Defined.

Lemma sample_results_lack_id :
  ¬ Forall (fun r => Forall (fun k => is_Some (r !! k)) export_keys) sample_results.
Proof.
  unfold sample_results, export_keys. intros H.
  apply Forall_cons in H as [H _]. apply Forall_cons in H as [[v Hv] _].
  unfold sample_result in Hv. rewrite mkdict_lookup in Hv. discriminate.
Qed.

Lemma export_rows_needs_six_keys_witness :
  ∃ r k, r ∈ sample_results ∧ k ∈ export_keys ∧ r !! k = None ∧
    export_rows sample_results = Raise (mk_exception KeyError ("'" +:+ k +:+ "'")).
Proof.
  exact (proj2 (export_rows_needs_six_keys sample_results) sample_results_lack_id).
Defined.

Lemma export_rows_of_scan_witness :
  Forall in_contract [faulting_probe; terse_probe] ∧
  ∃ results rows,
    run_all_checks [faulting_probe; terse_probe] (fun _ => now0) = Return results ∧
    export_rows results = Return rows ∧
    length rows = 2%nat.
Proof.
  split; [exact two_probes_in_contract|].
  destruct (export_rows_of_scan _ (fun _ => now0) two_probes_in_contract)
    as (results & rows & Hrun & Hexp & Hlen & _).
  exists results, rows. repeat split; assumption.
Defined.

Lemma calculate_stats_needs_status_witness :
  Forall (fun r => is_Some (r !! "status")) sample_results ∧
  ∃ stats, calculate_stats sample_results = Return stats ∧
    dom stats = list_to_set ["total"; "passed"; "failed"; "warnings";
                             "compliance_score"].
Proof.
  split; [exact sample_results_have_status|].
  exact (proj1 (calculate_stats_needs_status sample_results)
           sample_results_have_status).
Defined.

Lemma group_by_category_needs_category_witness :
  Forall (fun r => ∃ c, category_is c r) sample_results ∧
  group_by_category (sample_results ++ [∅]) =
    Raise (mk_exception KeyError "'category'").
Proof.
  split; [exact sample_results_have_category|].
  exact (proj1 (group_by_category_needs_category sample_results [] ∅
                  sample_results_have_category) eq_refl).
Defined.

Lemma compliance_score_range_witness :
  Forall (fun r => is_Some (r !! "status")) sample_results ∧
  ∃ stats, calculate_stats sample_results = Return stats ∧
    ∃ x, stats !! "compliance_score" = Some (VFloat x) ∧ (0 <= x)%Q ∧ (x <= 100)%Q.
Proof.
  split; [exact sample_results_have_status|].
  destruct (compliance_score_range sample_results sample_results_have_status)
    as (stats & Hstats & _ & Hx).
  exists stats. split; [exact Hstats|]. apply Hx. discriminate.
Defined.

Lemma score_color_of_statistics_witness :
  Forall (fun r => is_Some (r !! "status")) sample_results ∧
  ∃ stats score color,
    calculate_stats sample_results = Return stats ∧
    stats !! "compliance_score" = Some score ∧
    get_score_color score = Return color ∧
    color ∈ score_colors.
Proof.
  split; [exact sample_results_have_status|].
  destruct (score_color_of_statistics sample_results sample_results_have_status)
    as (stats & score & color & Hstats & Hscore & Hcolor & Hin & _).
  exists stats, score, color. repeat split; assumption.
Defined.

Lemma status_icon_of_result_witness :
  ∃ d, BaseCheck.run faulting_probe now0 = Return d ∧
    ∃ t icon, d !! "status" = Some (VStr t) ∧
      get_status_icon (VStr t) = Return icon ∧
      (icon = "❓" ↔ t ∉ ["PASS"; "FAIL"; "WARNING"]).
Proof.
  destruct (run_never_raises faulting_probe now0 faulting_probe_in_contract)
    as (d & Hrun & _).
  exists d. split; [exact Hrun|].
  exact (status_icon_of_result faulting_probe now0 d Hrun).
Defined.

Lemma get_never_None_witness :
  VInt 0 ≠ VNone ∧
  ConfigLoader.get sample_loader "scanning.frameworks" (VInt 0) ≠ VNone.
Proof.
  assert (VInt 0 ≠ VNone) as H by discriminate.
  split; [exact H|].
  exact (get_never_None sample_loader "scanning.frameworks" (VInt 0) H).
Defined.

Lemma get_descends_witness :
  PyStr.split "." "scanning" = ["scanning"] ∧
  ConfigLoader.get sample_loader "scanning.frameworks" VNone =
  ConfigLoader.get
    (ConfigLoader.mk "config.yaml" (VDict (mkdict [("frameworks", VList [VStr "CIS"])])))
    "frameworks" VNone.
Proof.
  split; [reflexivity|].
  pose proof (get_descends sample_loader "scanning" "frameworks" VNone eq_refl) as H.
  cbn [ConfigLoader.config ConfigLoader.config_path sample_loader] in H.
  rewrite mkdict_lookup in H. exact H.
Defined.

Lemma section_getters_against_get_witness :
  ConfigLoader.get_reporting_config sample_loader = Return VNone ∧
  ConfigLoader.get sample_loader "reporting" (VDict ∅) = VDict ∅.
Proof.
  assert ((ConfigLoader.get_reporting_config, "reporting") ∈
          [(ConfigLoader.get_scanning_config, "scanning");
           (ConfigLoader.get_reporting_config, "reporting");
           (ConfigLoader.get_scoring_config, "scoring")]) as Hin.
  { apply elem_of_cons. right. apply elem_of_cons. by left. }
  pose proof (section_getters_against_get sample_loader _ _ Hin) as H.
  cbn [ConfigLoader.config sample_loader] in H.
  rewrite mkdict_lookup in H. exact H.
Defined.




Lemma run_rejects_malformed_outcome_witness :
  BaseCheck.check (bare_probe (Return VNone)) = Return VNone ∧
  ∃ d, BaseCheck.run (bare_probe (Return VNone)) now0 = Return d ∧
    d !! "status" = Some (VStr "ERROR") ∧
    d !! "finding" = Some (VStr "Check execution failed") ∧
    d !! "error" = Some (VStr "'NoneType' object has no attribute 'get'").
Proof.
  split; [reflexivity|].
  exact (run_rejects_malformed_outcome (bare_probe (Return VNone)) now0 VNone eq_refl).
Defined.
